(** * The [@Bind] method decorator: resolution state machine over a JS object heap

    The development embeds [packages/bind/src/lib] of the repository:
    [states.ts], [investigators.ts], [errors.ts], [workers.ts],
    [delegators.ts] and [bind.ts].  The program is a few lines of logic on
    top of the host's object model, so the first part of the file is the
    fragment of that object model the code touches (ordinary objects with
    own property tables and a prototype link, data and accessor properties,
    [Object.defineProperty], [hasOwnProperty], [Function.prototype.bind],
    [[Call]] on bound functions); the second part is the code itself, one
    definition per source function, under the source's names.

    What the fragment takes for granted: the built-ins the code reaches
    through a global ([Object.defineProperty],
    [Object.prototype.hasOwnProperty], [Date.now]) are the original ones;
    objects are ordinary objects, not proxies; classes are native, so that
    [instanceof] sees the subclasses of [Error].  [bind] is not reached
    through a global: the code looks it up on the method, and the lookup
    is part of the model.  Bodies of user functions are not interpreted: a
    computation that would have to run one, or to box a primitive
    receiver, ends as [Unmodelled]. *)

From Stdlib Require Import ZArith String.
From stdpp Require Import base decidable countable option strings gmap.

Open Scope string_scope.

(** ** Values and property keys *)

Abbreviation loc := positive (only parsing).

Inductive PropertyKey :=
| KString (s : string)
| KSymbol (id : positive).

Global Instance PropertyKey_eq_dec : EqDecision PropertyKey.
Proof. solve_decision. Defined.

Global Instance PropertyKey_countable : Countable PropertyKey.
Proof.
  refine (inj_countable'
            (λ k, match k with KString s => inl s | KSymbol n => inr n end)
            (λ x, match x with inl s => KString s | inr n => KSymbol n end) _).
  by intros [].
Defined.

(** Numbers are kept to the integers and [NaN]: the code only tests values
    for truthiness and identity. *)
Inductive value :=
| VUndefined
| VNull
| VBool (b : bool)
| VNumber (n : Z)
| VNaN
| VString (s : string)
| VSymbol (id : positive)
| VObject (l : loc).

Global Instance value_eq_dec : EqDecision value.
Proof. solve_decision. Defined.

Definition key_value (k : PropertyKey) : value :=
  match k with
  | KString s => VString s
  | KSymbol n => VSymbol n
  end.

(** [ToBoolean], as used by [!x]. *)
Definition ToBoolean (v : value) : bool :=
  match v with
  | VUndefined | VNull | VNaN => false
  | VBool b => b
  | VNumber n => negb (n =? 0)%Z
  | VString s => negb (String.eqb s "")
  | VSymbol _ | VObject _ => true
  end.

(** [a === b]. *)
Definition strict_equals (a b : value) : bool :=
  match a, b with
  | VNaN, _ | _, VNaN => false
  | _, _ => bool_decide (a = b)
  end.

(** [SameValue], the comparison [Object.defineProperty] uses. *)
Definition SameValue (a b : value) : bool := bool_decide (a = b).

(** ** Objects *)

(** The descriptor a decorator receives; the code reads [value] and
    [enumerable] from it and nothing else. *)
Record PropertyDescriptor := {
  desc_value : value;
  desc_enumerable : option bool
}.

(** What an object does when called.  [UserFunction] is an ordinary
    function (a method declared in a class body): its body is not
    interpreted, it is identified by [code] and observes the [this] it is
    called with.  [BoundFunction] is the exotic object made by
    [Function.prototype.bind], and [BuiltinBind] is that built-in itself.
    [BindGetter] is the closure [get] built by the decorator, with the
    three variables it captures; the captured descriptor object is only
    ever read, and is kept as the record of what it held at decoration. *)
Inductive callable :=
| UserFunction (code : nat)
| BoundFunction (boundTarget : loc) (boundThis : value)
| BuiltinBind
| BindGetter (target : value) (propertyKey : PropertyKey)
             (descriptor : PropertyDescriptor).

Inductive property :=
| DataProperty (v : value) (writable enumerable configurable : bool)
| AccessorProperty (get set : value) (enumerable configurable : bool).

Global Instance PropertyDescriptor_eq_dec : EqDecision PropertyDescriptor.
Proof. solve_decision. Defined.
Global Instance callable_eq_dec : EqDecision callable.
Proof. solve_decision. Defined.
Global Instance property_eq_dec : EqDecision property.
Proof. solve_decision. Defined.

Record object := {
  prototype : option loc;
  extensible : bool;
  properties : gmap PropertyKey property;
  internal_call : option callable
}.

(** The world: the object heap and the wall clock.  [Date.now()] reads
    [clock] at the current tick and advances the tick, so that successive
    readings are unrelated. *)
Record world := {
  heap : gmap loc object;
  clock : nat → Z;
  ticks : nat
}.

Definition with_heap (h : gmap loc object) (w : world) : world :=
  {| heap := h; clock := clock w; ticks := ticks w |}.

(** The realm's [Object] constructor, the right-hand side of
    [target.constructor === Object]. *)
Definition Object_constructor : loc := 1%positive.

(** ** Completions and the computation monad *)

Inductive js_error :=
| TypeError (message : string)
| BindingError (message : string)
| BindError (message : string).

(** A computation returns normally, throws, or leaves the modelled
    fragment ([Unmodelled]: it would run user code or touch a primitive
    wrapper). *)
Inductive completion (A : Type) :=
| Normal (a : A)
| Throw (e : js_error)
| Unmodelled.
Arguments Normal {A} a.
Arguments Throw {A} e.
Arguments Unmodelled {A}.

Definition M (A : Type) : Type := world → completion A * world.

Global Instance M_ret : MRet M := λ A a w, (Normal a, w).
Global Instance M_bind : MBind M := λ A B f m w,
  match m w with
  | (Normal a, w') => f a w'
  | (Throw e, w') => (Throw e, w')
  | (Unmodelled, w') => (Unmodelled, w')
  end.

Global Instance M_fmap : FMap M := λ A B f m w,
  match m w with
  | (Normal a, w') => (Normal (f a), w')
  | (Throw e, w') => (Throw e, w')
  | (Unmodelled, w') => (Unmodelled, w')
  end.

Definition throw {A} (e : js_error) : M A := λ w, (Throw e, w).
Definition unmodelled {A} : M A := λ w, (Unmodelled, w).
Definition lift {A} (c : completion A) : M A := λ w, (c, w).

(** [try { body } catch (error) { handler }]. *)
Definition try_catch {A} (body : M A) (handler : js_error → M A) : M A :=
  λ w, match body w with
       | (Throw e, w') => handler e w'
       | r => r
       end.

(** Sequencing of pure completions (constructors that only validate). *)
Definition and_then {A B} (c : completion A) (k : A → completion B)
  : completion B :=
  match c with
  | Normal a => k a
  | Throw e => Throw e
  | Unmodelled => Unmodelled
  end.

(** ** Host operations *)

Definition Date_now : M Z := λ w,
  (Normal (clock w (ticks w)),
   {| heap := heap w; clock := clock w; ticks := S (ticks w) |}).

(** [typeof v === 'function']. *)
Definition IsCallable (h : gmap loc object) (v : value) : bool :=
  match v with
  | VObject l =>
      match h !! l with
      | Some o => bool_decide (is_Some (internal_call o))
      | None => false
      end
  | _ => false
  end.

Definition own_property (h : gmap loc object) (l : loc) (k : PropertyKey)
  : option property :=
  o ← h !! l; properties o !! k.

(** Walk of the prototype chain from [l]: the first property named [k]. *)
Fixpoint find_property_from (fuel : nat) (h : gmap loc object) (l : loc)
    (k : PropertyKey) : option property :=
  match fuel with
  | O => None
  | S fuel' =>
      match h !! l with
      | None => None
      | Some o =>
          match properties o !! k with
          | Some p => Some p
          | None =>
              match prototype o with
              | None => None
              | Some l' => find_property_from fuel' h l' k
              end
          end
      end
  end.

(** Prototype chains are acyclic, so a chain is no longer than the heap. *)
Definition find_property (h : gmap loc object) (l : loc) (k : PropertyKey)
  : option property :=
  find_property_from (S (size h)) h l k.

(** [O.[[Get]](k, receiver)], with the call of a getter left to
    [run_getter]. *)
Definition Get (run_getter : loc → value → M value)
    (o : value) (k : PropertyKey) (receiver : value) : M value := λ w,
  match o with
  | VUndefined | VNull =>
      (Throw (TypeError "Cannot read properties of undefined"), w)
  | VObject l =>
      match heap w !! l with
      | None => (Unmodelled, w)
      | Some _ =>
          match find_property (heap w) l k with
          | None => (Normal VUndefined, w)
          | Some (DataProperty v _ _ _) => (Normal v, w)
          | Some (AccessorProperty VUndefined _ _ _) => (Normal VUndefined, w)
          | Some (AccessorProperty (VObject g) _ _ _) => run_getter g receiver w
          | Some (AccessorProperty _ _ _ _) => (Unmodelled, w)
          end
      end
  | _ => (Unmodelled, w)
  end.

(** A property read made by the decorator's own code, [o[k]]: reading a
    data property gives its value; an accessor would run code that the
    read is not modelled to re-enter. *)
Definition get_property (o : value) (k : PropertyKey) : M value :=
  Get (λ _ _, unmodelled) o k o.

(** [Object.prototype.hasOwnProperty.call(o, k)]. *)
Definition hasOwnProperty_call (o : value) (k : PropertyKey) : M bool := λ w,
  match o with
  | VUndefined | VNull =>
      (Throw (TypeError "Cannot convert undefined or null to object"), w)
  | VObject l =>
      match heap w !! l with
      | None => (Unmodelled, w)
      | Some ob => (Normal (bool_decide (is_Some (properties ob !! k))), w)
      end
  | _ => (Unmodelled, w)
  end.

(** The built-in [Function.prototype.bind] run with [f] as [this] and
    one argument: a fresh bound function object whose prototype is that of
    [f].  The [length] and [name] bookkeeping properties of the new object
    are not represented. *)
Definition Function_bind (f thisArg : value) : M value := λ w,
  match f with
  | VObject l =>
      match heap w !! l with
      | Some o =>
          match internal_call o with
          | Some _ =>
              let b := fresh (dom (heap w)) in
              (Normal (VObject b),
               with_heap
                 (<[b := {| prototype := prototype o; extensible := true;
                            properties := ∅;
                            internal_call := Some (BoundFunction l thisArg) |}]>
                    (heap w)) w)
          | None => (Throw (TypeError "Bind must be called on a function"), w)
          end
      | None => (Unmodelled, w)
      end
  | _ => (Throw (TypeError "Bind must be called on a function"), w)
  end.

(** The call [f(arg)] with [this] as receiver, for a function value the
    code looked up itself: the built-in [bind] is run; a value that is
    not callable makes the call throw; any other callable is user code. *)
Definition call_function (f this arg : value) : M value := λ w,
  match f with
  | VObject l =>
      match heap w !! l with
      | Some o =>
          match internal_call o with
          | Some BuiltinBind => Function_bind this arg w
          | Some _ => (Unmodelled, w)
          | None =>
              (Throw (TypeError "state.method.bind is not a function"), w)
          end
      | None => (Unmodelled, w)
      end
  | _ => (Throw (TypeError "state.method.bind is not a function"), w)
  end.

(** The expression [v.bind(arg)]: the property [bind] is read off [v],
    own or inherited, and what it holds is called with [v] as [this]. *)
Definition invoke_bind (v arg : value) : M value :=
  f ← get_property v (KString "bind");
  call_function f v arg.

(** A data descriptor with all four fields present, as [defineOnInstance]
    builds it. *)
Record DataDescriptor := {
  dd_value : value;
  dd_configurable : bool;
  dd_writable : bool;
  dd_enumerable : bool
}.

(** [ValidateAndApplyPropertyDescriptor] for a complete data descriptor:
    whether the definition is allowed against the current own property. *)
Definition define_allowed (ext : bool) (current : option property)
    (d : DataDescriptor) : bool :=
  match current with
  | None => ext
  | Some (DataProperty v w e c) =>
      c || (negb (dd_configurable d) && eqb (dd_enumerable d) e &&
            (w || (negb (dd_writable d) && SameValue (dd_value d) v)))
  | Some (AccessorProperty _ _ _ c) => c
  end.

(** [Object.defineProperty(o, k, d)]. *)
Definition Object_defineProperty (o : value) (k : PropertyKey)
    (d : DataDescriptor) : M unit := λ w,
  match o with
  | VObject l =>
      match heap w !! l with
      | None => (Unmodelled, w)
      | Some ob =>
          if define_allowed (extensible ob) (properties ob !! k) d then
            (Normal tt,
             with_heap
               (<[l := {| prototype := prototype ob;
                          extensible := extensible ob;
                          properties :=
                            <[k := DataProperty (dd_value d) (dd_writable d)
                                     (dd_enumerable d) (dd_configurable d)]>
                              (properties ob);
                          internal_call := internal_call ob |}]> (heap w)) w)
          else (Throw (TypeError "Cannot define property"), w)
      end
  | _ => (Throw (TypeError "Object.defineProperty called on non-object"), w)
  end.

(** ** [interfaces.ts] and [states.ts] *)

(** Each interface and each state class is a module holding its record
    [t]; a class's [new] is its constructor. *)

Module IBindingState.
Record t := {
  instance : value;
  methodName : PropertyKey;
  enumerable : bool
}.
End IBindingState.

Module IInitialBindingState.
Record t := {
  base : IBindingState.t;
  target : value;
  method : value
}.
Definition instance (s : t) : value := IBindingState.instance (base s).
Definition methodName (s : t) : PropertyKey :=
  IBindingState.methodName (base s).
Definition enumerable (s : t) : bool := IBindingState.enumerable (base s).
End IInitialBindingState.

Inductive FailedOperation := bind_phase | define_phase.

(** [IErrorTransitionState]: the plain object handed to the error worker,
    the spread of the initial state plus the two error fields. *)
Module IErrorTransitionState.
Record t := {
  state : IInitialBindingState.t;
  error : string;
  failedOperation : FailedOperation
}.
End IErrorTransitionState.

Module BaseBindingState.
Definition validateInstance (instance : value) : completion unit :=
  if negb (ToBoolean instance)
  then Throw (TypeError "Instance must be provided")
  else Normal tt.

Definition validateMethodName (methodName : value) : completion unit :=
  if negb (ToBoolean methodName)
  then Throw (TypeError "Method name must be provided")
  else Normal tt.

(** The constructor: both validations, then the three fields. *)
Definition new (data : IBindingState.t) : completion IBindingState.t :=
  and_then (validateInstance (IBindingState.instance data)) (λ _,
  and_then
    (validateMethodName (key_value (IBindingState.methodName data))) (λ _,
  Normal {| IBindingState.instance := IBindingState.instance data;
            IBindingState.methodName := IBindingState.methodName data;
            IBindingState.enumerable := IBindingState.enumerable data |})).
End BaseBindingState.

Module InitialBindingState.
Definition validateTarget (target : value) : completion unit :=
  if negb (ToBoolean target)
  then Throw (TypeError "Target must be provided")
  else Normal tt.

Definition validateMethod (h : gmap loc object) (method : value)
  : completion unit :=
  if negb (IsCallable h method)
  then Throw (TypeError "Method must be a function")
  else Normal tt.

(** [super(data)], the two further validations, the two further fields.
    [typeof] looks at the heap, which is all the constructor needs of
    the world. *)
Definition construct (h : gmap loc object) (data : IInitialBindingState.t)
  : completion IInitialBindingState.t :=
  and_then (BaseBindingState.new (IInitialBindingState.base data)) (λ b,
  and_then (validateTarget (IInitialBindingState.target data)) (λ _,
  and_then (validateMethod h (IInitialBindingState.method data)) (λ _,
  Normal {| IInitialBindingState.base := b;
            IInitialBindingState.target := IInitialBindingState.target data;
            IInitialBindingState.method := IInitialBindingState.method data
         |}))).

Definition new (data : IInitialBindingState.t) : M IInitialBindingState.t :=
  λ w, (construct (heap w) data, w).
End InitialBindingState.

Module PrototypeMethodState.
Record t := {
  base : IBindingState.t;
  target : value;
  method : value;
  isPrototype : bool;
  previousState : IInitialBindingState.t
}.

Definition new (data : IInitialBindingState.t)
    (previousState : IInitialBindingState.t) : completion t :=
  and_then (BaseBindingState.new (IInitialBindingState.base data)) (λ b,
  Normal {| base := b;
            target := IInitialBindingState.target data;
            method := IInitialBindingState.method data;
            isPrototype := true;
            previousState := previousState |}).
End PrototypeMethodState.

Module ExistingBindState.
Record t := {
  base : IBindingState.t;
  boundMethod : value;
  isExisting : bool;
  previousState : IInitialBindingState.t
}.

Definition new (data : IBindingState.t) (boundMethod : value)
    (previousState : IInitialBindingState.t) : completion t :=
  and_then (BaseBindingState.new data) (λ b,
  Normal {| base := b;
            boundMethod := boundMethod;
            isExisting := true;
            previousState := previousState |}).
End ExistingBindState.

Module BoundMethodState.
Record t := {
  base : IBindingState.t;
  boundMethod : value;
  bindingTime : Z;
  previousState : IInitialBindingState.t
}.

Definition new (data : IBindingState.t) (boundMethod : value)
    (bindingTime : Z) (previousState : IInitialBindingState.t)
  : completion t :=
  and_then (BaseBindingState.new data) (λ b,
  Normal {| base := b;
            boundMethod := boundMethod;
            bindingTime := bindingTime;
            previousState := previousState |}).
End BoundMethodState.

Module DefinedPropertyState.
(** [extends BoundMethodState]: the inherited fields, with
    [previousState] now the bound state, and the two new ones. *)
Record t := {
  base : IBindingState.t;
  boundMethod : value;
  bindingTime : Z;
  previousState : BoundMethodState.t;
  propertyDescriptor : DataDescriptor;
  definitionTime : Z
}.

Definition new (data : BoundMethodState.t)
    (propertyDescriptor : DataDescriptor) (definitionTime : Z)
    (previousState : BoundMethodState.t) : completion t :=
  and_then (BaseBindingState.new (BoundMethodState.base data)) (λ b,
  Normal {| base := b;
            boundMethod := BoundMethodState.boundMethod data;
            bindingTime := BoundMethodState.bindingTime data;
            previousState := previousState;
            propertyDescriptor := propertyDescriptor;
            definitionTime := definitionTime |}).
End DefinedPropertyState.

Module BindingErrorState.
Record t := {
  base : IBindingState.t;
  error : string;
  errorTime : Z;
  failedOperation : FailedOperation;
  previousState : IErrorTransitionState.t
}.

Definition new (data : IErrorTransitionState.t) (errorTime : Z)
    (previousState : IErrorTransitionState.t) : completion t :=
  and_then
    (BaseBindingState.new
       (IInitialBindingState.base (IErrorTransitionState.state data))) (λ b,
  Normal {| base := b;
            error := IErrorTransitionState.error data;
            errorTime := errorTime;
            failedOperation := IErrorTransitionState.failedOperation data;
            previousState := previousState |}).
End BindingErrorState.

(** [MethodProcessedState], the union the delegator returns; the
    [instanceof] tests of the getter are a match on it. *)
Inductive MethodProcessedState :=
| IsPrototypeMethodState (s : PrototypeMethodState.t)
| IsExistingBindState (s : ExistingBindState.t)
| IsBindingErrorState (s : BindingErrorState.t)
| IsDefinedPropertyState (s : DefinedPropertyState.t).

(** ** [investigators.ts] *)

Module MethodBindingInvestigator.
(** Is this an access directly on the prototype? *)
Definition isPrototypeAccess (state : IInitialBindingState.t) : bool :=
  strict_equals (IInitialBindingState.instance state)
                (IInitialBindingState.target state).

(** Does this instance already have its own bound version? *)
Definition hasExistingBinding (state : IInitialBindingState.t) : M bool :=
  hasOwnProperty_call (IInitialBindingState.instance state)
                      (IInitialBindingState.methodName state).

(** [!(state.target.constructor === Object)]. *)
Definition shouldBindToPrototype (state : IInitialBindingState.t)
  : M bool :=
  c ← get_property (IInitialBindingState.target state)
                   (KString "constructor");
  mret (negb (strict_equals c (VObject Object_constructor))).
End MethodBindingInvestigator.

(** ** [errors.ts] *)

Module BindingError.
Definition assertCanBind (state : IInitialBindingState.t) : M unit :=
  ok ← MethodBindingInvestigator.shouldBindToPrototype state;
  if negb ok
  then throw (BindingError
                "Cannot bind: method should not bind to prototype")
  else mret tt.
End BindingError.

(** ** [workers.ts] *)

Module RetrieveOriginalMethodWorker.
Definition retrieveFromPrototype (state : IInitialBindingState.t)
  : M PrototypeMethodState.t :=
  lift (PrototypeMethodState.new state state).
End RetrieveOriginalMethodWorker.

Module RetrieveExistingBindingWorker.
Definition retrieveFromInstance (state : IInitialBindingState.t)
  : M ExistingBindState.t :=
  boundMethod ← get_property (IInitialBindingState.instance state)
                             (IInitialBindingState.methodName state);
  lift (ExistingBindState.new (IInitialBindingState.base state)
                              boundMethod state).
End RetrieveExistingBindingWorker.

Module CreateMethodBindingWorker.
Definition bindToInstance (state : IInitialBindingState.t)
  : M BoundMethodState.t :=
  BindingError.assertCanBind state;;
  boundMethod ← invoke_bind (IInitialBindingState.method state)
                            (IInitialBindingState.instance state);
  bindingTime ← Date_now;
  lift (BoundMethodState.new (IInitialBindingState.base state)
                             boundMethod bindingTime state).
End CreateMethodBindingWorker.

Module DefinePropertyWorker.
Definition defineOnInstance (state : BoundMethodState.t)
  : M DefinedPropertyState.t :=
  let descriptor :=
    {| dd_value := BoundMethodState.boundMethod state;
       dd_configurable := true;
       dd_writable := true;
       dd_enumerable :=
         IBindingState.enumerable (BoundMethodState.base state) |} in
  Object_defineProperty
    (IBindingState.instance (BoundMethodState.base state))
    (IBindingState.methodName (BoundMethodState.base state))
    descriptor;;
  definitionTime ← Date_now;
  lift (DefinedPropertyState.new state descriptor definitionTime state).
End DefinePropertyWorker.

Module ErrorTransitionWorker.
Definition createErrorState (state : IErrorTransitionState.t)
  : M BindingErrorState.t :=
  errorTime ← Date_now;
  lift (BindingErrorState.new state errorTime state).
End ErrorTransitionWorker.

(** ** [delegators.ts] *)

Module MethodBindingDelegator.
(** The delegator is always built with the five workers and the
    investigator above, so the calls are made to them directly. *)
Definition process (state : IInitialBindingState.t)
  : M MethodProcessedState :=
  try_catch
    (if MethodBindingInvestigator.isPrototypeAccess state then
       IsPrototypeMethodState <$>
         RetrieveOriginalMethodWorker.retrieveFromPrototype state
     else
       existing ← MethodBindingInvestigator.hasExistingBinding state;
       if (existing : bool) then
         IsExistingBindState <$>
           RetrieveExistingBindingWorker.retrieveFromInstance state
       else
         boundState ← CreateMethodBindingWorker.bindToInstance state;
         IsDefinedPropertyState <$>
           DefinePropertyWorker.defineOnInstance boundState)
    (λ error,
       match error with
       | BindingError message =>
           IsBindingErrorState <$>
             ErrorTransitionWorker.createErrorState
               {| IErrorTransitionState.state := state;
                  IErrorTransitionState.error := message;
                  IErrorTransitionState.failedOperation := bind_phase |}
       | _ => throw error
       end).
End MethodBindingDelegator.

(** ** [bind.ts] *)

(** The body of the accessor's [get], for the [target], [propertyKey] and
    [descriptor] its closure captures and the receiver [this].  The last
    [throw] of the source, after the four [instanceof] tests, is the
    unreachable default of the match. *)
Definition Bind_get (target : value) (propertyKey : PropertyKey)
    (descriptor : PropertyDescriptor) (this : value) : M value :=
  state ← InitialBindingState.new
            {| IInitialBindingState.base :=
                 {| IBindingState.instance := this;
                    IBindingState.methodName := propertyKey;
                    IBindingState.enumerable :=
                      default false (desc_enumerable descriptor) |};
               IInitialBindingState.target := target;
               IInitialBindingState.method := desc_value descriptor |};
  result ← MethodBindingDelegator.process state;
  match result with
  | IsPrototypeMethodState r => mret (PrototypeMethodState.method r)
  | IsExistingBindState r => mret (ExistingBindState.boundMethod r)
  | IsDefinedPropertyState r => mret (DefinedPropertyState.boundMethod r)
  | IsBindingErrorState r => throw (BindError (BindingErrorState.error r))
  end.

(** The descriptor the decorator returns: [configurable: true],
    [enumerable] copied, a getter and no setter. *)
Record AccessorDescriptor := {
  ad_configurable : bool;
  ad_enumerable : option bool;
  ad_get : value
}.

(** [Bind()(target, propertyKey, descriptor)]: allocates the getter's
    closure and returns the new descriptor; nothing else happens at
    decoration time.  A class field has no descriptor to hand to the
    decorator (the test of non-method properties applies it to one,
    against the declared type): evaluating [descriptor.enumerable] for the
    returned literal then throws. *)
Definition Bind (target : value) (propertyKey : PropertyKey)
    (descriptor : option PropertyDescriptor) : M AccessorDescriptor := λ w,
  match descriptor with
  | None =>
      (Throw (TypeError "Cannot read properties of undefined"), w)
  | Some descriptor =>
      let g := fresh (dom (heap w)) in
      (Normal {| ad_configurable := true;
                 ad_enumerable := desc_enumerable descriptor;
                 ad_get := VObject g |},
       with_heap
         (<[g := {| prototype := None; extensible := true; properties := ∅;
                    internal_call :=
                      Some (BindGetter target propertyKey descriptor) |}]>
            (heap w)) w)
  end.

(** ** Client code: reading a property, calling a function *)

(** Calling a getter found on the chain: the closures made by [Bind] run
    [Bind_get]; any other getter is user code. *)
Definition call_getter (g : loc) (this : value) : M value := λ w,
  match heap w !! g with
  | Some o =>
      match internal_call o with
      | Some (BindGetter t k d) => Bind_get t k d this w
      | _ => (Unmodelled, w)
      end
  | None => (Unmodelled, w)
  end.

(** The expression [o.k]. *)
Definition read (o : value) (k : PropertyKey) : M value :=
  Get call_getter o k o.





(** What the compiler's decorator helper does with a method decorator:
    take the method's own descriptor from the class prototype, hand it to
    the decorator and define the returned accessor in its place. *)
Definition decorate (target : loc) (propertyKey : PropertyKey)
  : M unit := λ w,
  match heap w !! target with
  | Some ob =>
      match properties ob !! propertyKey with
      | Some (DataProperty v _ e _) =>
          match Bind (VObject target) propertyKey
                  (Some {| desc_value := v; desc_enumerable := Some e |}) w
          with
          | (Normal d, w') =>
              (Normal tt,
               with_heap
                 (<[target :=
                      {| prototype := prototype ob;
                         extensible := extensible ob;
                         properties :=
                           <[propertyKey :=
                               AccessorProperty (ad_get d) VUndefined
                                 (default false (ad_enumerable d))
                                 (ad_configurable d)]> (properties ob);
                         internal_call := internal_call ob |}]> (heap w')) w')
          | (Throw e', w') => (Throw e', w')
          | (Unmodelled, w') => (Unmodelled, w')
          end
      | _ => (Unmodelled, w)
      end
  | None => (Unmodelled, w)
  end.

(** The helper's last step, defining on the class prototype the accessor
    a decorator returned. *)
Definition define_accessor (target : loc) (propertyKey : PropertyKey)
    (d : AccessorDescriptor) : M unit := λ w,
  match heap w !! target with
  | Some ob =>
      (Normal tt,
       with_heap
         (<[target :=
              {| prototype := prototype ob;
                 extensible := extensible ob;
                 properties :=
                   <[propertyKey :=
                       AccessorProperty (ad_get d) VUndefined
                         (default false (ad_enumerable d))
                         (ad_configurable d)]> (properties ob);
                 internal_call := internal_call ob |}]> (heap w)) w)
  | None => (Unmodelled, w)
  end.

(** What the helper does with a decorator on a class field: a field is
    no property of the prototype, so there is nothing to describe, and the
    decorator is handed [undefined] for a descriptor. *)
Definition decorate_field (target : loc) (propertyKey : PropertyKey)
  : M unit :=
  d ← Bind (VObject target) propertyKey None;
  define_accessor target propertyKey d.

(** [new C()] for a class with no constructor of its own: a fresh object
    whose prototype is [C.prototype], each field defined on it with its
    initial value. *)
Definition instantiate (proto : loc) (fields : list (PropertyKey * value))
  : M value := λ w,
  let i := fresh (dom (heap w)) in
  (Normal (VObject i),
   with_heap
     (<[i := {| prototype := Some proto; extensible := true;
                properties :=
                  list_to_map
                    ((λ f, (f.1, DataProperty f.2 true true true))
                       <$> fields);
                internal_call := None |}]> (heap w)) w).

(** * Vocabulary of the properties *)

(** A request is valid on a heap when the four validations pass. *)
Definition valid_request (h : gmap loc object)
    (data : IInitialBindingState.t) : bool :=
  ToBoolean (IInitialBindingState.instance data)
  && ToBoolean (key_value (IInitialBindingState.methodName data))
  && ToBoolean (IInitialBindingState.target data)
  && IsCallable h (IInitialBindingState.method data).

Definition request (t : value) (k : PropertyKey) (d : PropertyDescriptor)
    (this : value) : IInitialBindingState.t :=
  {| IInitialBindingState.base :=
       {| IBindingState.instance := this;
          IBindingState.methodName := k;
          IBindingState.enumerable := default false (desc_enumerable d) |};
     IInitialBindingState.target := t;
     IInitialBindingState.method := desc_value d |}.

Definition guard_message : string :=
  "Cannot bind: method should not bind to prototype".

Definition bind_message : string := "state.method.bind is not a function".

(** What [state.method.bind] finds: the built-in, a value that cannot be
    called, or something whose call runs code outside the model (a user
    function, a getter). *)
Inductive bind_lookup := bind_builtin | bind_not_callable | bind_other.

Definition method_bind (w : world) (method : value) : bind_lookup :=
  match get_property method (KString "bind") w with
  | (Normal (VObject b), _) =>
      match heap w !! b with
      | Some bo =>
          match internal_call bo with
          | Some BuiltinBind => bind_builtin
          | Some _ => bind_other
          | None => bind_not_callable
          end
      | None => bind_other
      end
  | (Normal _, _) => bind_not_callable
  | _ => bind_other
  end.

Definition bound_function_object (mo : object) (m : loc) (this : value)
  : object :=
  {| prototype := prototype mo; extensible := true; properties := ∅;
     internal_call := Some (BoundFunction m this) |}.

Definition with_own (ob : object) (k : PropertyKey) (p : property) : object :=
  {| prototype := prototype ob; extensible := extensible ob;
     properties := <[k := p]> (properties ob);
     internal_call := internal_call ob |}.

(** The property [defineOnInstance] installs for bound function [b]. *)
Definition installed (d : PropertyDescriptor) (b : loc) : property :=
  DataProperty (VObject b) true (default false (desc_enumerable d)) true.

(** Every way an access through the getter can end, with the world it
    leaves.  One constructor per path of [Bind_get] through
    [MethodBindingDelegator.process]. *)
Inductive resolution (t : value) (k : PropertyKey) (d : PropertyDescriptor)
    (this : value) (w : world) : completion value → world → Prop :=
| res_invalid msg :
    valid_request (heap w) (request t k d this) = false →
    resolution t k d this w (Throw (TypeError msg)) w
| res_prototype :
    valid_request (heap w) (request t k d this) = true →
    strict_equals this t = true →
    resolution t k d this w (Normal (desc_value d)) w
| res_existing i ob v wr e c :
    valid_request (heap w) (request t k d this) = true →
    strict_equals this t = false →
    this = VObject i → heap w !! i = Some ob →
    properties ob !! k = Some (DataProperty v wr e c) →
    resolution t k d this w (Normal v) w
| res_existing_no_getter i ob s e c :
    valid_request (heap w) (request t k d this) = true →
    strict_equals this t = false →
    this = VObject i → heap w !! i = Some ob →
    properties ob !! k = Some (AccessorProperty VUndefined s e c) →
    resolution t k d this w (Normal VUndefined) w
| res_rejected i ob :
    valid_request (heap w) (request t k d this) = true →
    strict_equals this t = false →
    this = VObject i → heap w !! i = Some ob →
    properties ob !! k = None →
    get_property t (KString "constructor") w
      = (Normal (VObject Object_constructor), w) →
    resolution t k d this w (Throw (BindError guard_message))
      {| heap := heap w; clock := clock w; ticks := S (ticks w) |}
| res_defined i ob c m mo :
    valid_request (heap w) (request t k d this) = true →
    strict_equals this t = false →
    this = VObject i → heap w !! i = Some ob →
    properties ob !! k = None →
    get_property t (KString "constructor") w = (Normal c, w) →
    c ≠ VObject Object_constructor →
    desc_value d = VObject m → heap w !! m = Some mo →
    extensible ob = true →
    method_bind w (desc_value d) = bind_builtin →
    resolution t k d this w (Normal (VObject (fresh (dom (heap w)))))
      {| heap :=
           <[i := with_own ob k (installed d (fresh (dom (heap w))))]>
             (<[fresh (dom (heap w)) := bound_function_object mo m this]>
                (heap w));
         clock := clock w; ticks := S (S (ticks w)) |}
| res_define_failed i ob c m mo :
    valid_request (heap w) (request t k d this) = true →
    strict_equals this t = false →
    this = VObject i → heap w !! i = Some ob →
    properties ob !! k = None →
    get_property t (KString "constructor") w = (Normal c, w) →
    c ≠ VObject Object_constructor →
    desc_value d = VObject m → heap w !! m = Some mo →
    extensible ob = false →
    method_bind w (desc_value d) = bind_builtin →
    resolution t k d this w (Throw (TypeError "Cannot define property"))
      {| heap := <[fresh (dom (heap w)) := bound_function_object mo m this]>
                   (heap w);
         clock := clock w; ticks := S (ticks w) |}
| res_bind_failed i ob c :
    valid_request (heap w) (request t k d this) = true →
    strict_equals this t = false →
    this = VObject i → heap w !! i = Some ob →
    properties ob !! k = None →
    get_property t (KString "constructor") w = (Normal c, w) →
    c ≠ VObject Object_constructor →
    method_bind w (desc_value d) = bind_not_callable →
    resolution t k d this w (Throw (TypeError bind_message)) w
| res_unmodelled :
    resolution t k d this w Unmodelled w.


(** What the read of [k] on object [i] reaches when it ends at an accessor
    made by [Bind]: the three variables the getter's closure captured. *)
Definition decorated_slot (h : gmap loc object) (i : loc) (k : PropertyKey)
  : option (value * PropertyKey * PropertyDescriptor) :=
  match find_property h i k with
  | Some (AccessorProperty (VObject g) _ _ _) =>
      match h !! g with
      | Some go =>
          match internal_call go with
          | Some (BindGetter t k' d) => Some (t, k', d)
          | _ => None
          end
      | None => None
      end
  | _ => None
  end.

(** [n] successive reads of [o.k], in order. *)
Fixpoint read_times (n : nat) (o : value) (k : PropertyKey)
  : M (list value) :=
  match n with
  | O => mret []
  | S n' => v ← read o k; vs ← read_times n' o k; mret (v :: vs)
  end.

(** The own property table of object [i]. *)
Definition own_table (h : gmap loc object) (i : loc)
  : option (gmap PropertyKey property) :=
  properties <$> h !! i.

(** The worlds passed through by [n] successive runs of the getter on the
    same receiver, the starting world first. *)
Fixpoint access_trace (n : nat) (t : value) (k : PropertyKey)
    (d : PropertyDescriptor) (this : value) (w : world) : list world :=
  match n with
  | O => [w]
  | S n' => w :: access_trace n' t k d this (Bind_get t k d this w).2
  end.

(** How many steps of a trace changed the own property table of [i]. *)
Fixpoint table_writes (i : loc) (ws : list world) : nat :=
  match ws with
  | [] => 0
  | w1 :: rest =>
      match rest with
      | [] => 0
      | w2 :: _ =>
          (if bool_decide (own_table (heap w1) i = own_table (heap w2) i)
           then 0 else 1) + table_writes i rest
      end
  end.


(** * Example worlds *)

(** [Object.freeze(l)]: the object stops being extensible and each own
    property stops being configurable and, for a data property,
    writable. *)
Definition frozen_property (p : property) : property :=
  match p with
  | DataProperty v _ e _ => DataProperty v false e false
  | AccessorProperty g s e _ => AccessorProperty g s e false
  end.

Definition Object_freeze (l : loc) (w : world) : world :=
  with_heap
    (alter (λ ob, {| prototype := prototype ob; extensible := false;
                     properties := frozen_property <$> properties ob;
                     internal_call := internal_call ob |}) l (heap w)) w.

Module Examples.
Definition plain (p : option loc) (ps : list (PropertyKey * property))
  : object :=
  {| prototype := p; extensible := true; properties := list_to_map ps;
     internal_call := None |}.

Definition func (c : nat) (ps : list (PropertyKey * property)) : object :=
  {| prototype := Some 3%positive; extensible := true;
     properties := list_to_map ps; internal_call := Some (UserFunction c) |}.

Definition hidden (v : value) : property := DataProperty v true false true.
Definition field (v : value) : property := DataProperty v true true true.

(** The realm: 1 is [Object], 2 [Object.prototype], 3
    [Function.prototype], 4 the built-in [bind] that
    [Function.prototype] holds. *)
Definition realm : list (loc * object) :=
  [ (1%positive, func 0 [(KString "prototype", hidden (VObject 2))]);
    (2%positive, plain None [(KString "constructor", hidden (VObject 1))]);
    (3%positive, plain (Some 2%positive)
                   [(KString "bind", hidden (VObject 4))]);
    (4%positive,
     {| prototype := Some 3%positive; extensible := true; properties := ∅;
        internal_call := Some BuiltinBind |}) ].

Definition increment : PropertyKey := KString "increment".

(** [class Counter { count = 0; increment() { ... } }] and one instance,
    before decoration: 5 is [Counter], 6 [Counter.prototype], 7 the
    method, 8 the instance. *)
Definition undecorated : world :=
  {| heap := list_to_map
       (realm ++
        [ (5%positive, func 1 [(KString "prototype", hidden (VObject 6))]);
          (6%positive, plain (Some 2%positive)
                         [(KString "constructor", hidden (VObject 5));
                          (increment, hidden (VObject 7))]);
          (7%positive, func 2 []);
          (8%positive, plain (Some 6%positive)
                         [(KString "count", field (VNumber 0))]) ]);
     clock := λ n, (1000 + Z.of_nat n)%Z;
     ticks := 0 |}.

(** The same once [@Bind()] has been applied to [increment]; 9 is the
    getter. *)
Definition counter_world : world := (decorate 6 increment undecorated).2.

(** What the decorator was given for [increment]. *)
Definition increment_descriptor : PropertyDescriptor :=
  {| desc_value := VObject 7; desc_enumerable := Some false |}.

(** After [counter.increment] has been read once; 10 is the bound
    function. *)
Definition counter_read : world :=
  (read (VObject 8) increment counter_world).2.

(** The counter as that read left it. *)
Definition counter_object : object :=
  default (plain None []) (heap counter_read !! 8%positive).

(** The counter frozen before its method was ever read. *)
Definition frozen_world : world := Object_freeze 8 counter_world.

(** [class Sub extends Counter {}] next to the above, and an instance of
    it: 9 is [Sub], 10 [Sub.prototype], 11 the instance; 12 is the
    getter. *)
Definition derived_world : world :=
  (decorate 6 increment
     {| heap := list_to_map
          (realm ++
           [ (5%positive, func 1 [(KString "prototype", hidden (VObject 6))]);
             (6%positive, plain (Some 2%positive)
                            [(KString "constructor", hidden (VObject 5));
                             (increment, hidden (VObject 7))]);
             (7%positive, func 2 []);
             (8%positive, plain (Some 6%positive)
                            [(KString "count", field (VNumber 0))]);
             (9%positive, func 3 [(KString "prototype", hidden (VObject 10))]);
             (10%positive, plain (Some 6%positive)
                            [(KString "constructor", hidden (VObject 9))]);
             (11%positive, plain (Some 10%positive)
                             [(KString "count", field (VNumber 0))]) ]);
        clock := λ n, Z.of_nat n;
        ticks := 0 |}).2.

(** After [Sub.prototype.increment] has been read once; 13 is the
    function that read bound. *)
Definition derived_read : world :=
  (read (VObject 10) increment derived_world).2.

Definition greet : PropertyKey := KString "greet".

(** The decorator applied by hand to a method of an object literal (5,
    the method is 6) from which 7 is made with [Object.create]: the
    target's [constructor] is the inherited [Object].  8 is the getter. *)
Definition literal_world : world :=
  (decorate 5 greet
     {| heap := list_to_map
          (realm ++
           [ (5%positive, plain (Some 2%positive)
                            [(greet, field (VObject 6))]);
             (6%positive, func 1 []);
             (7%positive, plain (Some 5%positive) []) ]);
        clock := λ n, Z.of_nat n;
        ticks := 0 |}).2.

Definition greet_descriptor : PropertyDescriptor :=
  {| desc_value := VObject 6; desc_enumerable := Some true |}.

(** The descriptor of a property holding a string. *)
Definition text_descriptor : PropertyDescriptor :=
  {| desc_value := VString "not a method"; desc_enumerable := Some true |}.

(** [class Invalid { property = "not a method" }] as its definition is
    being evaluated, the decorator of the field not yet applied: 5 is
    [Invalid], 6 [Invalid.prototype], and there is no instance. *)
Definition invalid_class : world :=
  {| heap := list_to_map
       (realm ++
        [ (5%positive, func 1 [(KString "prototype", hidden (VObject 6))]);
          (6%positive, plain (Some 2%positive)
                         [(KString "constructor", hidden (VObject 5))]) ]);
     clock := λ n, Z.of_nat n;
     ticks := 0 |}.

Definition invalid_fields : list (PropertyKey * value) :=
  [(KString "property", VString "not a method")].
End Examples.

(** * Vocabulary of the further properties *)

(** The base fields of a processed state. *)
Definition processed_base (r : MethodProcessedState) : IBindingState.t :=
  match r with
  | IsPrototypeMethodState s => PrototypeMethodState.base s
  | IsExistingBindState s => ExistingBindState.base s
  | IsBindingErrorState s => BindingErrorState.base s
  | IsDefinedPropertyState s => DefinedPropertyState.base s
  end.

Definition property_configurable (p : property) : bool :=
  match p with
  | DataProperty _ _ _ c => c
  | AccessorProperty _ _ _ c => c
  end.

(** Whether [defineOnInstance] may install its property on [ob]: the
    object lacks the property and is extensible, or holds it as
    configurable. *)
Definition definable (ob : object) (k : PropertyKey) : bool :=
  match properties ob !! k with
  | None => extensible ob
  | Some p => property_configurable p
  end.

Module MoreExamples.



(** The counter class with a method that shadows [bind] with a value that
    is no function ([increment.bind = undefined]): 7 is the method, 8 the
    instance, 9 the getter. *)
Definition unbindable_world : world :=
  (decorate 6 Examples.increment
     {| heap := list_to_map
          (Examples.realm ++
           [ (5%positive,
              Examples.func 1
                [(KString "prototype", Examples.hidden (VObject 6))]);
             (6%positive,
              Examples.plain (Some 2%positive)
                [(KString "constructor", Examples.hidden (VObject 5));
                 (Examples.increment, Examples.hidden (VObject 7))]);
             (7%positive,
              Examples.func 2 [(KString "bind", Examples.field VUndefined)]);
             (8%positive, Examples.plain (Some 6%positive) []) ]);
        clock := λ n, Z.of_nat n;
        ticks := 0 |}).2.

(** The counter of [Examples.counter_read] frozen after its method was
    read. *)
Definition frozen_after_read : world :=
  Object_freeze 8 Examples.counter_read.

(** A bound state as [bindToInstance] hands it on, for the frozen
    counter. *)
Definition frozen_bound_state : BoundMethodState.t :=
  {| BoundMethodState.base :=
       {| IBindingState.instance := VObject 8;
          IBindingState.methodName := Examples.increment;
          IBindingState.enumerable := false |};
     BoundMethodState.boundMethod := VObject 7;
     BoundMethodState.bindingTime := 0;
     BoundMethodState.previousState :=
       request (VObject 6) Examples.increment Examples.increment_descriptor
         (VObject 8) |}.
End MoreExamples.

Module ProcessedExamples.
Definition counter_request : IInitialBindingState.t :=
  request (VObject 6) Examples.increment Examples.increment_descriptor
    (VObject 8).



Definition counter_existing : ExistingBindState.t :=
  {| ExistingBindState.base := IInitialBindingState.base counter_request;
     ExistingBindState.boundMethod := VObject 10;
     ExistingBindState.isExisting := true;
     ExistingBindState.previousState := counter_request |}.

Definition greet_request : IInitialBindingState.t :=
  request (VObject 5) Examples.greet Examples.greet_descriptor (VObject 7).

(** The error state the delegator returns for a read through the object
    made from the literal, and the world after it. *)
Definition greet_rejected : BindingErrorState.t :=
  {| BindingErrorState.base := IInitialBindingState.base greet_request;
     BindingErrorState.error := guard_message;
     BindingErrorState.errorTime := 0;
     BindingErrorState.failedOperation := bind_phase;
     BindingErrorState.previousState :=
       {| IErrorTransitionState.state := greet_request;
          IErrorTransitionState.error := guard_message;
          IErrorTransitionState.failedOperation := bind_phase |} |}.

Definition literal_rejected : world :=
  {| heap := heap Examples.literal_world;
     clock := clock Examples.literal_world;
     ticks := 1 |}.
End ProcessedExamples.

(** * Properties *)

(** ** Host operations *)

Lemma find_property_own (h : gmap loc object) l o k p :
  h !! l = Some o → properties o !! k = Some p → find_property h l k = Some p.
Proof.
  intros Hl Hk. unfold find_property. simpl. by rewrite Hl, Hk.
Qed.

(** Fuel only bounds the walks: what a walk finds, it finds with any
    larger fuel. *)
Lemma find_property_from_mono n n' (h : gmap loc object) l k p :
  (n ≤ n')%nat →
  find_property_from n h l k = Some p → find_property_from n' h l k = Some p.
Proof.
  revert n' l. induction n as [|n IH]; intros n' l Hle; [done|].
  destruct n' as [|n']; [lia|]. simpl.
  destruct (h !! l) as [o|]; [|done].
  destruct (properties o !! k); [done|].
  destruct (prototype o); [|done]. apply IH. lia.
Qed.


Lemma get_property_pure o k w r w' :
  get_property o k w = (r, w') → w' = w.
Proof.
  unfold get_property, Get, unmodelled. intros H.
  repeat case_match; by simplify_eq.
Qed.

Lemma get_property_truthy t k w :
  ToBoolean t = true →
  ∃ r, get_property t k w = (r, w) ∧ ∀ e, r ≠ Throw e.
Proof.
  intros Ht. destruct (get_property t k w) as [r w'] eqn:H.
  pose proof (get_property_pure _ _ _ _ _ H) as ->.
  exists r. split; [done|]. intros e ->.
  unfold get_property, Get, unmodelled in H.
  destruct t; try done; repeat case_match; simplify_eq.
Qed.

Lemma strict_equals_object c l :
  strict_equals c (VObject l) = true ↔ c = VObject l.
Proof.
  unfold strict_equals. destruct c; try (rewrite bool_decide_eq_true; done).
  split; done.
Qed.

Lemma strict_equals_sound a b : strict_equals a b = true → a = b.
Proof.
  unfold strict_equals. destruct a, b; try done;
    by intros ?%bool_decide_eq_true.
Qed.

Lemma strict_equals_distinct a b : a ≠ b → strict_equals a b = false.
Proof.
  intros Hne. apply not_true_is_false. by intros ?%strict_equals_sound.
Qed.

Lemma IsCallable_inv h v :
  IsCallable h v = true →
  ∃ m mo c, v = VObject m ∧ h !! m = Some mo ∧ internal_call mo = Some c.
Proof.
  unfold IsCallable. destruct v; try done.
  destruct (h !! l) as [mo|] eqn:Hl; [|done].
  intros [c Hc]%bool_decide_eq_true. by exists l, mo, c.
Qed.

Lemma fresh_not_allocated (h : gmap loc object) l x :
  h !! l = Some x → fresh (dom h) ≠ l.
Proof.
  intros Hl Heq. apply (is_fresh (dom h)). rewrite Heq.
  apply elem_of_dom. eauto.
Qed.

Lemma lookup_alloc (h : gmap loc object) o l x :
  h !! l = Some x → <[fresh (dom h) := o]> h !! l = Some x.
Proof.
  intros Hl. rewrite lookup_insert_ne; [done|].
  by eapply fresh_not_allocated.
Qed.

Lemma IsCallable_alloc (h : gmap loc object) o v :
  IsCallable h v = true →
  IsCallable (<[fresh (dom h) := o]> h) v = true.
Proof.
  intros (m & mo & cm & -> & Hm & Hcm)%IsCallable_inv. unfold IsCallable.
  rewrite (lookup_alloc _ _ _ _ Hm). apply bool_decide_eq_true. eauto.
Qed.

Lemma IsCallable_with_own (h : gmap loc object) i ob k p v :
  h !! i = Some ob →
  IsCallable (<[i := with_own ob k p]> h) v = IsCallable h v.
Proof.
  intros Hob. unfold IsCallable. destruct v; try done.
  destruct (decide (l = i)) as [->|Hne].
  - by rewrite lookup_insert_eq, Hob.
  - by rewrite lookup_insert_ne.
Qed.


(** Reading a property off an object never throws. *)
Lemma get_property_object l k w e w' :
  get_property (VObject l) k w ≠ (Throw e, w').
Proof.
  unfold get_property, Get, unmodelled.
  repeat case_match; congruence.
Qed.

(** [m.bind(this)] for a function [m], by what the lookup of [bind]
    finds. *)
Lemma invoke_bind_method w m mo this :
  heap w !! m = Some mo → is_Some (internal_call mo) →
  invoke_bind (VObject m) this w =
  match method_bind w (VObject m) with
  | bind_builtin =>
      (Normal (VObject (fresh (dom (heap w)))),
       with_heap
         (<[fresh (dom (heap w)) := bound_function_object mo m this]>
            (heap w)) w)
  | bind_not_callable => (Throw (TypeError bind_message), w)
  | bind_other => (Unmodelled, w)
  end.
Proof.
  intros Hm [cm Hcm]. unfold invoke_bind, method_bind, mbind, M_bind.
  destruct (get_property (VObject m) (KString "bind") w) as [r w1] eqn:Hg.
  pose proof (get_property_pure _ _ _ _ _ Hg) as ->.
  destruct r as [v|e|]; [| by destruct (get_property_object _ _ _ _ _ Hg) |done].
  destruct v as [| | | | | | |b]; try done.
  unfold call_function. destruct (heap w !! b) as [bo|]; [|done].
  destruct (internal_call bo) as [[]|]; try done.
  unfold Function_bind. by rewrite Hm, Hcm.
Qed.

(** ** The monad *)

Lemma fmap_Normal_inv {A B} (f : A → B) (m : M A) w b w' :
  (f <$> m) w = (Normal b, w') → ∃ a, b = f a ∧ m w = (Normal a, w').
Proof.
  unfold fmap, M_fmap. destruct (m w) as [[a|e|] w1]; intros H;
    simplify_eq. by exists a.
Qed.

Lemma bind_Normal_inv {A B} (m : M A) (f : A → M B) w b w' :
  (m ≫= f) w = (Normal b, w') →
  ∃ a w1, m w = (Normal a, w1) ∧ f a w1 = (Normal b, w').
Proof.
  unfold mbind, M_bind. destruct (m w) as [[a|e|] w1]; intros H;
    simplify_eq. by exists a, w1.
Qed.

(** Unfolding of the monadic plumbing and of the workers, one layer at a
    time. *)
Ltac unfold_monad :=
  unfold mbind, M_bind, fmap, M_fmap, mret, M_ret, lift, throw, unmodelled,
    try_catch, and_then.

Ltac unfold_workers :=
  unfold MethodBindingDelegator.process,
    RetrieveOriginalMethodWorker.retrieveFromPrototype,
    RetrieveExistingBindingWorker.retrieveFromInstance,
    CreateMethodBindingWorker.bindToInstance,
    DefinePropertyWorker.defineOnInstance,
    ErrorTransitionWorker.createErrorState,
    BindingError.assertCanBind,
    MethodBindingInvestigator.shouldBindToPrototype,
    MethodBindingInvestigator.hasExistingBinding,
    MethodBindingInvestigator.isPrototypeAccess,
    PrototypeMethodState.new, ExistingBindState.new, BoundMethodState.new,
    DefinedPropertyState.new, BindingErrorState.new.

(** ** Construction of the binding request *)

Lemma BaseBindingState_new_valid (b : IBindingState.t) :
  ToBoolean (IBindingState.instance b) = true →
  ToBoolean (key_value (IBindingState.methodName b)) = true →
  BaseBindingState.new b = Normal b.
Proof.
  intros Hi Hn. unfold BaseBindingState.new, BaseBindingState.validateInstance,
    BaseBindingState.validateMethodName.
  rewrite Hi, Hn. simpl. by destruct b.
Qed.

Lemma construct_valid h data :
  valid_request h data = true →
  InitialBindingState.construct h data = Normal data.
Proof.
  unfold valid_request, IInitialBindingState.instance,
    IInitialBindingState.methodName.
  intros [[[Hi Hn]%andb_prop Ht]%andb_prop Hm]%andb_prop.
  unfold InitialBindingState.construct.
  rewrite BaseBindingState_new_valid by done. simpl.
  unfold InitialBindingState.validateTarget, InitialBindingState.validateMethod.
  rewrite Ht, Hm. simpl. by destruct data.
Qed.

Lemma construct_invalid h data :
  valid_request h data = false →
  ∃ msg, InitialBindingState.construct h data = Throw (TypeError msg).
Proof.
  unfold valid_request, IInitialBindingState.instance,
    IInitialBindingState.methodName, InitialBindingState.construct,
    BaseBindingState.new, BaseBindingState.validateInstance,
    BaseBindingState.validateMethodName, InitialBindingState.validateTarget,
    InitialBindingState.validateMethod.
  intros H.
  destruct (ToBoolean (IBindingState.instance _)); simpl in *; [|by eexists].
  destruct (ToBoolean (key_value _)); simpl in *; [|by eexists].
  destruct (ToBoolean (IInitialBindingState.target _)); simpl in *;
    [|by eexists].
  rewrite H. simpl. by eexists.
Qed.

Lemma valid_request_inv h t k d this :
  valid_request h (request t k d this) = true →
  ToBoolean this = true ∧ ToBoolean (key_value k) = true
  ∧ ToBoolean t = true ∧ IsCallable h (desc_value d) = true.
Proof.
  unfold valid_request. simpl.
  intros [[[? ?]%andb_prop ?]%andb_prop ?]%andb_prop. done.
Qed.

Lemma request_instance t k d this :
  IInitialBindingState.instance (request t k d this) = this.
Proof. done. Qed.
Lemma request_target t k d this :
  IInitialBindingState.target (request t k d this) = t.
Proof. done. Qed.
Lemma request_methodName t k d this :
  IInitialBindingState.methodName (request t k d this) = k.
Proof. done. Qed.
Lemma request_method t k d this :
  IInitialBindingState.method (request t k d this) = desc_value d.
Proof. done. Qed.

Ltac simpl_request :=
  rewrite ?request_instance, ?request_target, ?request_methodName,
    ?request_method.

(** The base constructor passes on the fields of a valid request: every
    state class built along the way gets through its [super(data)]. *)
Lemma base_ok t k d this w :
  valid_request (heap w) (request t k d this) = true →
  BaseBindingState.new
    {| IBindingState.instance := this;
       IBindingState.methodName := k;
       IBindingState.enumerable := default false (desc_enumerable d) |}
  = Normal
      {| IBindingState.instance := this;
         IBindingState.methodName := k;
         IBindingState.enumerable := default false (desc_enumerable d) |}.
Proof.
  intros (? & ? & ? & ?)%valid_request_inv.
  by apply BaseBindingState_new_valid.
Qed.

(** The getter, once the request is built, is the delegator followed by
    the extraction of the value. *)
Lemma Bind_get_enter t k d this w :
  valid_request (heap w) (request t k d this) = true →
  Bind_get t k d this w =
  match MethodBindingDelegator.process (request t k d this) w with
  | (Normal (IsPrototypeMethodState r), w') =>
      (Normal (PrototypeMethodState.method r), w')
  | (Normal (IsExistingBindState r), w') =>
      (Normal (ExistingBindState.boundMethod r), w')
  | (Normal (IsDefinedPropertyState r), w') =>
      (Normal (DefinedPropertyState.boundMethod r), w')
  | (Normal (IsBindingErrorState r), w') =>
      (Throw (BindError (BindingErrorState.error r)), w')
  | (Throw e, w') => (Throw e, w')
  | (Unmodelled, w') => (Unmodelled, w')
  end.
Proof.
  intros Hvalid. unfold Bind_get. fold (request t k d this).
  unfold mbind at 1. unfold M_bind at 1, InitialBindingState.new.
  rewrite (construct_valid _ _ Hvalid).
  unfold mbind, M_bind.
  destruct (MethodBindingDelegator.process _ _) as [[[]| |] ?]; done.
Qed.

Lemma Bind_get_invalid t k d this w :
  valid_request (heap w) (request t k d this) = false →
  ∃ msg, Bind_get t k d this w = (Throw (TypeError msg), w).
Proof.
  intros Hinv. destruct (construct_invalid _ _ Hinv) as [msg Hmsg].
  exists msg. unfold Bind_get. fold (request t k d this).
  unfold mbind, M_bind, InitialBindingState.new. by rewrite Hmsg.
Qed.

Lemma Bind_get_prototype t k d this w :
  valid_request (heap w) (request t k d this) = true →
  strict_equals this t = true →
  Bind_get t k d this w = (Normal (desc_value d), w).
Proof.
  intros Hvalid Hp. rewrite Bind_get_enter by done.
  unfold_workers. unfold_monad. simpl_request. rewrite Hp.
  simpl. by rewrite (base_ok _ _ _ _ _ Hvalid).
Qed.

Lemma Bind_get_primitive_receiver t k d this w :
  valid_request (heap w) (request t k d this) = true →
  strict_equals this t = false →
  (∀ i, this = VObject i → heap w !! i = None) →
  Bind_get t k d this w = (Unmodelled, w).
Proof.
  intros Hvalid Hnp Hprim. rewrite Bind_get_enter by done.
  destruct (valid_request_inv _ _ _ _ _ Hvalid) as (Hthis & _).
  unfold_workers. unfold_monad. simpl_request. rewrite Hnp.
  unfold hasOwnProperty_call.
  destruct this; try done.
  by rewrite (Hprim l eq_refl).
Qed.

(** ** One access through an object, path by path *)

Section instance_access.
Context (t : value) (k : PropertyKey) (d : PropertyDescriptor)
        (i : loc) (ob : object) (w : world).
Hypothesis Hvalid : valid_request (heap w) (request t k d (VObject i)) = true.
Hypothesis Hnp : strict_equals (VObject i) t = false.
Hypothesis Hob : heap w !! i = Some ob.

(** Up to the answer of the existing-binding check. *)
Ltac run_to_check Hk :=
  unfold_workers; unfold_monad; simpl_request; rewrite Hnp;
  unfold hasOwnProperty_call; rewrite Hob, Hk.

Lemma Bind_get_existing v wr e c :
  properties ob !! k = Some (DataProperty v wr e c) →
  Bind_get t k d (VObject i) w = (Normal v, w).
Proof.
  intros Hk. rewrite Bind_get_enter by done. run_to_check Hk.
  rewrite bool_decide_true by eauto.
  unfold get_property, Get. rewrite Hob.
  rewrite (find_property_own _ _ _ _ _ Hob Hk).
  simpl. by rewrite (base_ok _ _ _ _ _ Hvalid).
Qed.

Lemma Bind_get_existing_no_getter s e c :
  properties ob !! k = Some (AccessorProperty VUndefined s e c) →
  Bind_get t k d (VObject i) w = (Normal VUndefined, w).
Proof.
  intros Hk. rewrite Bind_get_enter by done. run_to_check Hk.
  rewrite bool_decide_true by eauto.
  unfold get_property, Get. rewrite Hob.
  rewrite (find_property_own _ _ _ _ _ Hob Hk).
  simpl. by rewrite (base_ok _ _ _ _ _ Hvalid).
Qed.

Lemma Bind_get_existing_getter g s e c :
  g ≠ VUndefined →
  properties ob !! k = Some (AccessorProperty g s e c) →
  Bind_get t k d (VObject i) w = (Unmodelled, w).
Proof.
  intros Hg Hk. rewrite Bind_get_enter by done. run_to_check Hk.
  rewrite bool_decide_true by eauto.
  unfold get_property, Get. rewrite Hob.
  rewrite (find_property_own _ _ _ _ _ Hob Hk).
  by destruct g.
Qed.

Hypothesis Hfresh : properties ob !! k = None.

(** The error state a rejection by the guard goes through. *)
Lemma process_rejected :
  get_property t (KString "constructor") w
    = (Normal (VObject Object_constructor), w) →
  MethodBindingDelegator.process (request t k d (VObject i)) w =
  (Normal
     (IsBindingErrorState
        {| BindingErrorState.base :=
             IInitialBindingState.base (request t k d (VObject i));
           BindingErrorState.error := guard_message;
           BindingErrorState.errorTime := clock w (ticks w);
           BindingErrorState.failedOperation := bind_phase;
           BindingErrorState.previousState :=
             {| IErrorTransitionState.state := request t k d (VObject i);
                IErrorTransitionState.error := guard_message;
                IErrorTransitionState.failedOperation := bind_phase |} |}),
   {| heap := heap w; clock := clock w; ticks := S (ticks w) |}).
Proof.
  intros Hc. run_to_check Hfresh.
  rewrite bool_decide_false by (by intros [? ?]).
  rewrite Hc. simpl. unfold Date_now.
  by rewrite (base_ok _ _ _ _ _ Hvalid).
Qed.

Lemma Bind_get_rejected :
  get_property t (KString "constructor") w
    = (Normal (VObject Object_constructor), w) →
  Bind_get t k d (VObject i) w =
  (Throw (BindError guard_message),
   {| heap := heap w; clock := clock w; ticks := S (ticks w) |}).
Proof.
  intros Hc. rewrite Bind_get_enter by done. by rewrite process_rejected.
Qed.

Lemma Bind_get_constructor_unmodelled :
  get_property t (KString "constructor") w = (Unmodelled, w) →
  Bind_get t k d (VObject i) w = (Unmodelled, w).
Proof.
  intros Hc. rewrite Bind_get_enter by done. run_to_check Hfresh.
  rewrite bool_decide_false by (by intros [? ?]).
  by rewrite Hc.
Qed.

Context (c : value) (m : loc) (mo : object).
Hypothesis Hctor : get_property t (KString "constructor") w = (Normal c, w).
Hypothesis Hc : c ≠ VObject Object_constructor.
Hypothesis Hm : desc_value d = VObject m.
Hypothesis Hmo : heap w !! m = Some mo.

Lemma method_callable : is_Some (internal_call mo).
Proof.
  destruct (valid_request_inv _ _ _ _ _ Hvalid) as (_ & _ & _ & Hcall).
  apply IsCallable_inv in Hcall as (m' & mo' & cm & ? & ? & ?).
  exists cm. congruence.
Qed.

(** The steps up to the call of [bind] on the method: the guard lets the
    target through, and the call is decided by the lookup. *)
Ltac run_to_bind :=
  run_to_check Hfresh;
  rewrite bool_decide_false by (by intros [? ?]);
  rewrite Hctor, (strict_equals_distinct _ _ Hc); simpl;
  rewrite Hm, (invoke_bind_method _ _ _ _ Hmo method_callable).

(** A method whose [bind] cannot be called: the call throws, nothing has
    been allocated or written, and the delegator throws the [TypeError]
    again. *)
Lemma process_bind_failed :
  method_bind w (desc_value d) = bind_not_callable →
  MethodBindingDelegator.process (request t k d (VObject i)) w =
  (Throw (TypeError bind_message), w).
Proof.
  intros Hbind. rewrite Hm in Hbind. run_to_bind. by rewrite Hbind.
Qed.

Lemma Bind_get_bind_failed :
  method_bind w (desc_value d) = bind_not_callable →
  Bind_get t k d (VObject i) w = (Throw (TypeError bind_message), w).
Proof.
  intros Hbind. rewrite Bind_get_enter by done.
  by rewrite process_bind_failed.
Qed.

Lemma Bind_get_bind_unmodelled :
  method_bind w (desc_value d) = bind_other →
  Bind_get t k d (VObject i) w = (Unmodelled, w).
Proof.
  intros Hbind. rewrite Hm in Hbind. rewrite Bind_get_enter by done.
  run_to_bind. by rewrite Hbind.
Qed.

Hypothesis Hbind : method_bind w (desc_value d) = bind_builtin.

Lemma method_bind_builtin : method_bind w (VObject m) = bind_builtin.
Proof. by rewrite <- Hm. Qed.

(** The steps shared by the two endings of the bind-and-define path:
    guard, bind, first timestamp, and [Object.defineProperty] finding
    the instance without the property. *)
Ltac run_to_define :=
  run_to_bind; rewrite method_bind_builtin; simpl;
  rewrite (base_ok _ _ _ _ _ Hvalid); simpl;
  rewrite (lookup_alloc _ _ _ _ Hob), Hfresh; simpl.

Lemma Bind_get_defined :
  extensible ob = true →
  Bind_get t k d (VObject i) w =
  (Normal (VObject (fresh (dom (heap w)))),
   {| heap :=
        <[i := with_own ob k (installed d (fresh (dom (heap w))))]>
          (<[fresh (dom (heap w)) :=
               bound_function_object mo m (VObject i)]> (heap w));
      clock := clock w; ticks := S (S (ticks w)) |}).
Proof.
  intros He. rewrite Bind_get_enter by done.
  run_to_define. unfold with_own. rewrite He. simpl.
  by rewrite (base_ok _ _ _ _ _ Hvalid).
Qed.

(** A [TypeError] of [Object.defineProperty] is not a [BindingError]: the
    delegator's [catch] throws it again, and no error state is made. *)
Lemma process_define_failed :
  extensible ob = false →
  MethodBindingDelegator.process (request t k d (VObject i)) w =
  (Throw (TypeError "Cannot define property"),
   {| heap := <[fresh (dom (heap w)) :=
                 bound_function_object mo m (VObject i)]> (heap w);
      clock := clock w; ticks := S (ticks w) |}).
Proof.
  intros He. run_to_define. by rewrite He.
Qed.

Lemma Bind_get_define_failed :
  extensible ob = false →
  Bind_get t k d (VObject i) w =
  (Throw (TypeError "Cannot define property"),
   {| heap := <[fresh (dom (heap w)) :=
                 bound_function_object mo m (VObject i)]> (heap w);
      clock := clock w; ticks := S (ticks w) |}).
Proof.
  intros He. rewrite Bind_get_enter by done.
  by rewrite process_define_failed.
Qed.
End instance_access.

(** Every access ends in one of the ways [resolution] lists. *)
Lemma Bind_get_resolution t k d this w :
  resolution t k d this w (Bind_get t k d this w).1 (Bind_get t k d this w).2.
Proof.
  destruct (valid_request (heap w) (request t k d this)) eqn:Hvalid.
  2:{ destruct (Bind_get_invalid _ _ _ _ _ Hvalid) as [msg ->].
      by constructor. }
  destruct (strict_equals this t) eqn:Hnp.
  { rewrite Bind_get_prototype by done. by constructor. }
  assert ((∃ i ob, this = VObject i ∧ heap w !! i = Some ob)
          ∨ (∀ i, this = VObject i → heap w !! i = None))
    as [(i & ob & -> & Hob)|Hprim].
  { destruct this; try (by right).
    destruct (heap w !! l) as [ob|] eqn:Hl; [left; eauto|right].
    intros i ?; by simplify_eq. }
  2:{ rewrite Bind_get_primitive_receiver; [constructor|done..]. }
  destruct (properties ob !! k) as [[v wr e c|g s e c]|] eqn:Hk.
  { erewrite Bind_get_existing by done. by econstructor. }
  { destruct (decide (g = VUndefined)) as [->|Hg].
    - erewrite Bind_get_existing_no_getter by done.
      by eapply res_existing_no_getter.
    - erewrite Bind_get_existing_getter by done. constructor. }
  destruct (valid_request_inv _ _ _ _ _ Hvalid) as (_ & _ & Ht & Hcall).
  destruct (get_property_truthy t (KString "constructor") w Ht)
    as (r & Hctor & Hr).
  destruct r as [c|e|]; [|by destruct (Hr e)|].
  2:{ erewrite Bind_get_constructor_unmodelled by done. constructor. }
  destruct (decide (c = VObject Object_constructor)) as [->|Hc].
  { erewrite Bind_get_rejected by done. by eapply res_rejected. }
  apply IsCallable_inv in Hcall as (m & mo & cm & Hm & Hmo & _).
  destruct (method_bind w (desc_value d)) eqn:Hbind.
  - destruct (extensible ob) eqn:He.
    + erewrite Bind_get_defined by done. by eapply res_defined.
    + erewrite Bind_get_define_failed by done. by eapply res_define_failed.
  - erewrite Bind_get_bind_failed by done. by eapply res_bind_failed.
  - erewrite Bind_get_bind_unmodelled by done. constructor.
Qed.

(** ** Reads *)

Lemma read_decorated w i k t k' d :
  decorated_slot (heap w) i k = Some (t, k', d) →
  read (VObject i) k w = Bind_get t k' d (VObject i) w.
Proof.
  unfold decorated_slot, read, Get, call_getter. intros H.
  destruct (heap w !! i) eqn:Hi.
  2:{ unfold find_property in H. simpl in H. by rewrite Hi in H. }
  repeat case_match; by simplify_eq.
Qed.

Lemma decorated_slot_not_own w i ob k p x :
  heap w !! i = Some ob → properties ob !! k = Some p →
  decorated_slot (heap w) i k = Some x →
  ∃ g s e c, p = AccessorProperty (VObject g) s e c.
Proof.
  intros Hi Hk. unfold decorated_slot.
  rewrite (find_property_own _ _ _ _ _ Hi Hk).
  destruct p as [|[] ? ? ?]; try done. eauto.
Qed.

Lemma read_own_data w i ob k v wr e c :
  heap w !! i = Some ob → properties ob !! k = Some (DataProperty v wr e c) →
  read (VObject i) k w = (Normal v, w).
Proof.
  intros Hi Hk. unfold read, Get.
  by rewrite Hi, (find_property_own _ _ _ _ _ Hi Hk).
Qed.

(** What a successful read through an instance leaves behind: the
    instance had no property of that name, a bound function was
    allocated, and the instance now owns it. *)
Lemma access_through_instance w i k t d f w' :
  decorated_slot (heap w) i k = Some (t, k, d) →
  VObject i ≠ t →
  read (VObject i) k w = (Normal f, w') →
  ∃ ob b m mo cm,
    heap w !! i = Some ob ∧ properties ob !! k = None
    ∧ desc_value d = VObject m ∧ heap w !! m = Some mo
    ∧ internal_call mo = Some cm
    ∧ b = fresh (dom (heap w)) ∧ f = VObject b
    ∧ heap w' = <[i := with_own ob k (installed d b)]>
                  (<[b := bound_function_object mo m (VObject i)]> (heap w)).
Proof.
  intros Hslot Hne Hread. rewrite (read_decorated _ _ _ _ _ _ Hslot) in Hread.
  pose proof (Bind_get_resolution t k d (VObject i) w) as R.
  rewrite Hread in R. simpl in R.
  inversion R as
    [ | ? Hp
      | i' ob v wr e c ? ? Hi Hob Hk
      | i' ob s e c ? ? Hi Hob Hk
      |
      | i' ob c m mo Hv ? Hi Hob Hk ? ? Hm Hmo
      | | | ]; simplify_eq.
  - by apply strict_equals_sound in Hp.
  - by destruct (decorated_slot_not_own _ _ _ _ _ _ Hob Hk Hslot)
      as (? & ? & ? & ? & ?).
  - by destruct (decorated_slot_not_own _ _ _ _ _ _ Hob Hk Hslot)
      as (? & ? & ? & ? & ?).
  - destruct (valid_request_inv _ _ _ _ _ Hv) as (_ & _ & _ & Hcall).
    apply IsCallable_inv in Hcall as (m' & mo' & cm & ? & ? & ?).
    assert (m' = m) as -> by congruence.
    assert (mo' = mo) as -> by congruence.
    by exists ob, (fresh (dom (heap w))), m, mo, cm.
Qed.


(** The first read through an extensible instance of a class returns: it
    binds and defines. *)
Lemma read_binds_and_defines w i ob k t d c m mo :
  decorated_slot (heap w) i k = Some (t, k, d) →
  valid_request (heap w) (request t k d (VObject i)) = true →
  VObject i ≠ t →
  heap w !! i = Some ob → properties ob !! k = None →
  extensible ob = true →
  get_property t (KString "constructor") w = (Normal c, w) →
  c ≠ VObject Object_constructor →
  desc_value d = VObject m → heap w !! m = Some mo →
  method_bind w (desc_value d) = bind_builtin →
  read (VObject i) k w =
  (Normal (VObject (fresh (dom (heap w)))),
   {| heap :=
        <[i := with_own ob k (installed d (fresh (dom (heap w))))]>
          (<[fresh (dom (heap w)) :=
               bound_function_object mo m (VObject i)]> (heap w));
      clock := clock w; ticks := S (S (ticks w)) |}).
Proof.
  intros Hslot Hvalid Hne Hob Hk He Hctor Hc Hm Hmo Hbind.
  rewrite (read_decorated _ _ _ _ _ _ Hslot).
  eapply Bind_get_defined; try done. by apply strict_equals_distinct.
Qed.

(** ** Error states *)



(** ** Runs of accesses *)

Lemma table_writes_cons i w n t k d :
  table_writes i (access_trace (S n) t k d (VObject i) w)
  = (if bool_decide (own_table (heap w) i
                     = own_table (heap (Bind_get t k d (VObject i) w).2) i)
     then 0 else 1)
    + table_writes i
        (access_trace n t k d (VObject i) (Bind_get t k d (VObject i) w).2).
Proof. by destruct n. Qed.

(** One access either leaves the instance's table alone, or is the one
    that installs the property on a table that lacked it. *)
Lemma access_step t k d i w :
  let w' := (Bind_get t k d (VObject i) w).2 in
  (own_table (heap w') i = own_table (heap w) i)
  ∨ (own_property (heap w) i k = None
     ∧ is_Some (own_property (heap w') i k)).
Proof.
  intros w'. subst w'.
  pose proof (Bind_get_resolution t k d (VObject i) w) as R.
  destruct (Bind_get t k d (VObject i) w) as [r w'] eqn:Hget. simpl in *.
  inversion R as
    [ | | | | |
      i' ob c m mo Hv ? Hi Hob Hk
      | i' ob c m mo Hv ? Hi Hob Hk | | ]; simplify_eq;
    try (left; reflexivity).
  - right. unfold own_property. simpl. rewrite Hob. simpl.
    split; [done|]. rewrite lookup_insert_eq. simpl.
    rewrite lookup_insert_eq. eauto.
  - left. unfold own_table. simpl. by rewrite (lookup_alloc _ _ _ _ Hob), Hob.
Qed.

Lemma own_table_property (h h' : gmap loc object) i k :
  own_table h' i = own_table h i →
  own_property h' i k = own_property h i k.
Proof.
  unfold own_table, own_property.
  destruct (h' !! i), (h !! i); simpl; intros H; congruence.
Qed.

(** * The claims *)




(** C2. Identity stability: after a read [i.m] of a decorated method has
    returned [f], any number of further reads return the same [f], and
    leave the world as the first read left it. *)
Theorem identity_stability w i k t d f w' :
  decorated_slot (heap w) i k = Some (t, k, d) →
  read (VObject i) k w = (Normal f, w') →
  ∀ n, read_times n (VObject i) k w' = (Normal (replicate n f), w').
Proof.
  intros Hslot Hread.
  assert (read (VObject i) k w' = (Normal f, w')) as Hagain.
  { destruct (decide (VObject i = t)) as [<-|Hne].
    - rewrite (read_decorated _ _ _ _ _ _ Hslot) in Hread.
      pose proof (Bind_get_resolution (VObject i) k d (VObject i) w) as R.
      rewrite Hread in R. simpl in R.
      assert (strict_equals (VObject i) (VObject i) = true) as Heq
        by (by apply strict_equals_object).
      inversion R; simplify_eq; try congruence.
      by rewrite (read_decorated _ _ _ _ _ _ Hslot).
    - destruct (access_through_instance _ _ _ _ _ _ _ Hslot Hne Hread)
        as (ob & b & m & mo & cm & Hob & Hk & _ & _ & _ & _ & -> & Hheap).
      eapply read_own_data.
      + rewrite Hheap. apply lookup_insert_eq.
      + unfold with_own, installed. simpl. apply lookup_insert_eq. }
  induction n as [|n IH]; [done|].
  simpl. unfold mbind, M_bind in *. rewrite Hagain, IH. done.
Qed.

Lemma identity_stability_witness :
  read_times 5 (VObject 8) Examples.increment Examples.counter_read
  = (Normal (replicate 5 (VObject 10)), Examples.counter_read).
Proof.
  refine (identity_stability Examples.counter_world 8 Examples.increment
            (VObject 6) Examples.increment_descriptor (VObject 10)
            Examples.counter_read _ _ 5);
    vm_compute; reflexivity.
Defined.

(** C3. Prototype purity: reading a decorated method with the defining
    object itself as receiver returns the original function, and the world
    (so every own property of the defining object) is left as it was.  The
    same holds of the getter however it is invoked with the target as
    [this]. *)
Theorem prototype_purity w T k d :
  decorated_slot (heap w) T k = Some (VObject T, k, d) →
  ToBoolean (key_value k) = true →
  IsCallable (heap w) (desc_value d) = true →
  read (VObject T) k w = (Normal (desc_value d), w)
  ∧ Bind_get (VObject T) k d (VObject T) w = (Normal (desc_value d), w).
Proof.
  intros Hslot Hk Hcall.
  assert (Bind_get (VObject T) k d (VObject T) w
          = (Normal (desc_value d), w)) as Hget.
  { apply Bind_get_prototype.
    - unfold valid_request. simpl_request. by rewrite Hk, Hcall.
    - by apply strict_equals_object. }
  split; [|done]. by rewrite (read_decorated _ _ _ _ _ _ Hslot).
Qed.

Lemma prototype_purity_witness :
  read (VObject 6) Examples.increment Examples.counter_world
    = (Normal (VObject 7), Examples.counter_world)
  ∧ Bind_get (VObject 6) Examples.increment Examples.increment_descriptor
      (VObject 6) Examples.counter_world
    = (Normal (VObject 7), Examples.counter_world).
Proof.
  refine (prototype_purity Examples.counter_world 6 Examples.increment
            Examples.increment_descriptor _ _ _);
    vm_compute; reflexivity.
Defined.

(** C4, as stated, fails on an instance of a subclass, in the same
    world: once [Sub.prototype.increment] has been read, the first access
    to the method through an instance of [Sub] succeeds, returning the
    function that [Sub.prototype] owns, and the instance has no own
    property of that name, before or after. *)
Lemma no_descriptor_below_derived_prototype :
  decorated_slot (heap Examples.derived_world) 11 Examples.increment
    = Some (VObject 6, Examples.increment, Examples.increment_descriptor)
  ∧ own_property (heap Examples.derived_read) 11 Examples.increment = None
  ∧ read (VObject 11) Examples.increment Examples.derived_read
    = (Normal (VObject 13), Examples.derived_read)
  ∧ own_property
      (heap (read (VObject 11) Examples.increment Examples.derived_read).2)
      11 Examples.increment
    = None.
Proof. vm_compute. repeat split. Qed.

(** C4, as the code has it.  Descriptor fidelity holds of an instance
    whose lookup of the method reaches the accessor made by the decorator
    and which is not the defining object: after the first successful read
    through it (before which it owned no property of that name), it owns
    a data property of that name holding the returned function, writable,
    configurable, and enumerable as the original descriptor says (not
    enumerable when it does not say). *)
Theorem descriptor_fidelity w i k t d f w' :
  decorated_slot (heap w) i k = Some (t, k, d) →
  VObject i ≠ t →
  read (VObject i) k w = (Normal f, w') →
  own_property (heap w) i k = None
  ∧ own_property (heap w') i k
    = Some (DataProperty f true (default false (desc_enumerable d)) true).
Proof.
  intros Hslot Hne Hread.
  destruct (access_through_instance _ _ _ _ _ _ _ Hslot Hne Hread)
    as (ob & b & m & mo & cm & Hob & Hk & _ & _ & _ & _ & -> & Hheap).
  unfold own_property. rewrite Hheap, Hob, lookup_insert_eq. simpl.
  split; [done|]. apply lookup_insert_eq.
Qed.

Lemma descriptor_fidelity_witness :
  own_property (heap Examples.counter_world) 8 Examples.increment = None
  ∧ own_property (heap Examples.counter_read) 8 Examples.increment
    = Some (DataProperty (VObject 10) true false true).
Proof.
  refine (descriptor_fidelity Examples.counter_world 8 Examples.increment
            (VObject 6) Examples.increment_descriptor (VObject 10)
            Examples.counter_read _ _ _);
    first [ vm_compute; reflexivity
          | apply (bool_decide_unpack _); vm_compute; exact I ].
Defined.








(** C8, as stated, fails in its last part.  For
    [class Invalid { @Bind() property = ... }] the decorator is applied
    while the class is being defined, with no descriptor to read: it
    throws there, before the request is ever constructed and with no
    instance in existence, and the instantiation that follows in the
    program is not reached; an instantiation run on its own raises
    nothing. *)
Lemma field_decoration_throws_at_class_definition :
  decorate_field 6 (KString "property") Examples.invalid_class
    = (Throw (TypeError "Cannot read properties of undefined"),
       Examples.invalid_class)
  ∧ (decorate_field 6 (KString "property");;
     instantiate 6 Examples.invalid_fields) Examples.invalid_class
    = (Throw (TypeError "Cannot read properties of undefined"),
       Examples.invalid_class)
  ∧ map_Forall (λ _ o, prototype o ≠ Some 6%positive)
      (heap Examples.invalid_class)
  ∧ (instantiate 6 Examples.invalid_fields Examples.invalid_class).1
    = Normal (VObject 7).
Proof.
  split; [reflexivity|]. split; [reflexivity|].
  split; [|vm_compute; reflexivity].
  apply (bool_decide_unpack _). vm_compute. exact I.
Qed.

(** C8, as the code has it.  A binding request is validated when it is
    constructed: a missing instance, a missing or empty method name, or a
    value that is not callable makes the constructor throw a [TypeError]
    on the spot, so the getter of a decorated slot whose original value
    is not a function throws that [TypeError] at each access that runs
    it, before anything is changed.  A decorator on a class field does
    not get that far: handed no descriptor, it throws its [TypeError]
    when it is applied, at class definition, and whatever the program
    does next, an instantiation for one, is not run. *)
Theorem request_validated_at_construction w :
  (∀ data,
     ToBoolean (IInitialBindingState.instance data) = false
     ∨ ToBoolean (key_value (IInitialBindingState.methodName data)) = false
     ∨ IsCallable (heap w) (IInitialBindingState.method data) = false →
     ∃ msg,
       InitialBindingState.new data w = (Throw (TypeError msg), w)
       ∧ ∀ t k d this,
           data = request t k d this →
           Bind_get t k d this w = (Throw (TypeError msg), w))
  ∧ (∀ target k,
       decorate_field target k w
         = (Throw (TypeError "Cannot read properties of undefined"), w)
       ∧ ∀ fields,
           (decorate_field target k;; instantiate target fields) w
           = (Throw (TypeError "Cannot read properties of undefined"), w)).
Proof.
  split.
  - intros data Hbad.
    assert (valid_request (heap w) data = false) as Hinv.
    { unfold valid_request.
      destruct Hbad as [-> | [-> | ->]]; simpl;
        rewrite ?andb_false_r; done. }
    destruct (construct_invalid _ _ Hinv) as [msg Hmsg].
    exists msg. split.
    + unfold InitialBindingState.new. by rewrite Hmsg.
    + intros t k d this ->. unfold Bind_get. fold (request t k d this).
      unfold mbind, M_bind, InitialBindingState.new. by rewrite Hmsg.
  - intros target k. split; [reflexivity|]. intros fields. reflexivity.
Qed.

(** C9. The eligibility guard: with [c] the value of
    [target.constructor], [shouldBindToPrototype] answers [c !== Object],
    so [assertCanBind] throws exactly when [c] is [Object] and lets every
    other target through; and a rejection met while resolving an access
    comes out of the delegator as an error state whose failed operation is
    [bind]. *)
Theorem eligibility_guard t k d i ob w c :
  valid_request (heap w) (request t k d (VObject i)) = true →
  get_property t (KString "constructor") w = (Normal c, w) →
  MethodBindingInvestigator.shouldBindToPrototype (request t k d (VObject i)) w
    = (Normal (negb (bool_decide (c = VObject Object_constructor))), w)
  ∧ (c ≠ VObject Object_constructor →
     BindingError.assertCanBind (request t k d (VObject i)) w
       = (Normal tt, w))
  ∧ (c = VObject Object_constructor →
     BindingError.assertCanBind (request t k d (VObject i)) w
       = (Throw (BindingError guard_message), w)
     ∧ (VObject i ≠ t → heap w !! i = Some ob → properties ob !! k = None →
        ∃ r, MethodBindingDelegator.process (request t k d (VObject i)) w
             = (Normal (IsBindingErrorState r),
                {| heap := heap w; clock := clock w; ticks := S (ticks w) |})
             ∧ BindingErrorState.failedOperation r = bind_phase
             ∧ BindingErrorState.error r = guard_message)).
Proof.
  intros Hvalid Hctor.
  assert (strict_equals c (VObject Object_constructor)
          = bool_decide (c = VObject Object_constructor)) as Heq.
  { case_bool_decide as Hc.
    - by apply strict_equals_object.
    - by apply strict_equals_distinct. }
  assert (MethodBindingInvestigator.shouldBindToPrototype
            (request t k d (VObject i)) w
          = (Normal (negb (bool_decide (c = VObject Object_constructor))), w))
    as Hshould.
  { unfold MethodBindingInvestigator.shouldBindToPrototype.
    unfold_monad. simpl_request. by rewrite Hctor, Heq. }
  split; [done|]. split.
  - intros Hc. unfold BindingError.assertCanBind. unfold mbind, M_bind.
    rewrite Hshould. rewrite bool_decide_false by done. reflexivity.
  - intros Hc. split.
    + unfold BindingError.assertCanBind. unfold mbind, M_bind.
      rewrite Hshould. rewrite bool_decide_true by done. reflexivity.
    + intros Hne Hob Hk. eexists. split.
      { subst c. apply (process_rejected t k d i ob w); try done.
        by apply strict_equals_distinct. }
      split; reflexivity.
Qed.

Lemma eligibility_guard_witness :
  let w := Examples.literal_world in
  let s := request (VObject 5) Examples.greet Examples.greet_descriptor
             (VObject 7) in
  let ob := Examples.plain (Some 5%positive) [] in
  let c := VObject Object_constructor in
  MethodBindingInvestigator.shouldBindToPrototype s w
    = (Normal (negb (bool_decide (c = VObject Object_constructor))), w)
  ∧ (c ≠ VObject Object_constructor →
     BindingError.assertCanBind s w = (Normal tt, w))
  ∧ (c = VObject Object_constructor →
     BindingError.assertCanBind s w
       = (Throw (BindingError guard_message), w)
     ∧ (VObject 7 ≠ VObject 5 → heap w !! 7%positive = Some ob →
        properties ob !! Examples.greet = None →
        ∃ r, MethodBindingDelegator.process s w
             = (Normal (IsBindingErrorState r),
                {| heap := heap w; clock := clock w; ticks := S (ticks w) |})
             ∧ BindingErrorState.failedOperation r = bind_phase
             ∧ BindingErrorState.error r = guard_message)).
Proof.
  intros w s ob c.
  apply (eligibility_guard (VObject 5) Examples.greet
           Examples.greet_descriptor 7 ob w c);
    vm_compute; reflexivity.
Defined.

(** C10. An own data property under the method name wins: whatever value
    it holds, bound function or not, the getter called on that instance
    returns it as it is and changes nothing, and so does a plain read.  In
    particular, once the value of the (writable) installed property is
    replaced, every further access returns the replacement. *)
Theorem existing_own_property_wins w t k d i ob v wr e c :
  valid_request (heap w) (request t k d (VObject i)) = true →
  VObject i ≠ t →
  heap w !! i = Some ob →
  properties ob !! k = Some (DataProperty v wr e c) →
  Bind_get t k d (VObject i) w = (Normal v, w)
  ∧ read (VObject i) k w = (Normal v, w)
  ∧ ∀ v',
      let w' := with_heap
                  (<[i := with_own ob k (DataProperty v' wr e c)]> (heap w))
                  w in
      Bind_get t k d (VObject i) w' = (Normal v', w')
      ∧ read (VObject i) k w' = (Normal v', w').
Proof.
  intros Hvalid Hne Hob Hk.
  pose proof (strict_equals_distinct _ _ Hne) as Hnp.
  split; [by eapply Bind_get_existing|].
  split; [by eapply read_own_data|].
  intros v' w'.
  assert (heap w' !! i = Some (with_own ob k (DataProperty v' wr e c))) as Hob'
    by apply lookup_insert_eq.
  assert (properties (with_own ob k (DataProperty v' wr e c)) !! k
          = Some (DataProperty v' wr e c)) as Hk'
    by apply lookup_insert_eq.
  split; [|by eapply read_own_data].
  eapply Bind_get_existing; [|done..].
  revert Hvalid. unfold valid_request. simpl_request.
  subst w'. simpl. by rewrite IsCallable_with_own.
Qed.

Lemma existing_own_property_wins_witness :
  let w := Examples.counter_read in
  let ob := Examples.counter_object in
  Bind_get (VObject 6) Examples.increment Examples.increment_descriptor
    (VObject 8) w = (Normal (VObject 10), w)
  ∧ read (VObject 8) Examples.increment w = (Normal (VObject 10), w)
  ∧ ∀ v',
      let w' := with_heap
                  (<[8%positive :=
                       with_own ob Examples.increment
                         (DataProperty v' true false true)]> (heap w)) w in
      Bind_get (VObject 6) Examples.increment Examples.increment_descriptor
        (VObject 8) w' = (Normal v', w')
      ∧ read (VObject 8) Examples.increment w' = (Normal v', w').
Proof.
  intros w ob.
  apply (existing_own_property_wins w (VObject 6) Examples.increment
           Examples.increment_descriptor 8 ob (VObject 10) true false true);
    first [ vm_compute; reflexivity
          | apply (bool_decide_unpack _); vm_compute; exact I ].
Defined.

(** * Further properties of the code *)

(** ** Construction and the state classes ([states.ts]) *)

(** X1. The constructor of the initial state accepts a request exactly
    when the four validations pass (instance, method name, target, method),
    and the state it returns holds the data as they were given. *)
Theorem construct_accepts_exactly h data s :
  InitialBindingState.construct h data = Normal s
  ↔ valid_request h data = true ∧ s = data.
Proof.
  split.
  - intros H. destruct (valid_request h data) eqn:Hv.
    + rewrite (construct_valid _ _ Hv) in H. by simplify_eq.
    + destruct (construct_invalid _ _ Hv) as [msg Hmsg]. congruence.
  - intros [Hv ->]. by apply construct_valid.
Qed.

(** X2. The validations run in a fixed order, before anything else the
    getter does, and the first one to fail decides the message: instance,
    then method name, then target, then method.  So a method whose name is
    the empty string cannot be read through any object, the defining one
    included. *)
Theorem validation_precedence t k d this w :
  (ToBoolean this = false →
   Bind_get t k d this w
   = (Throw (TypeError "Instance must be provided"), w))
  ∧ (ToBoolean this = true → ToBoolean (key_value k) = false →
     Bind_get t k d this w
     = (Throw (TypeError "Method name must be provided"), w))
  ∧ (ToBoolean this = true → ToBoolean (key_value k) = true →
     ToBoolean t = false →
     Bind_get t k d this w
     = (Throw (TypeError "Target must be provided"), w))
  ∧ (ToBoolean this = true → ToBoolean (key_value k) = true →
     ToBoolean t = true → IsCallable (heap w) (desc_value d) = false →
     Bind_get t k d this w
     = (Throw (TypeError "Method must be a function"), w)).
Proof.
  unfold Bind_get, InitialBindingState.new, InitialBindingState.construct,
    BaseBindingState.new, BaseBindingState.validateInstance,
    BaseBindingState.validateMethodName, InitialBindingState.validateTarget,
    InitialBindingState.validateMethod.
  unfold mbind, M_bind, and_then. simpl.
  repeat split.
  - by intros ->.
  - by intros -> ->.
  - by intros -> -> ->.
  - by intros -> -> -> ->.
Qed.

(** Every state class passes its data through the base constructor, so a
    state exists only with a truthy instance and a truthy method name. *)
Lemma BaseBindingState_new_inv b b' :
  BaseBindingState.new b = Normal b' →
  b' = b ∧ ToBoolean (IBindingState.instance b) = true
  ∧ ToBoolean (key_value (IBindingState.methodName b)) = true.
Proof.
  unfold BaseBindingState.new, BaseBindingState.validateInstance,
    BaseBindingState.validateMethodName, and_then.
  destruct (ToBoolean (IBindingState.instance b)); [|done].
  destruct (ToBoolean (key_value (IBindingState.methodName b))); [|done].
  simpl. intros [= <-]. by destruct b.
Qed.

Lemma lift_Normal_inv {A} (c : completion A) w a w' :
  lift c w = (Normal a, w') → c = Normal a ∧ w' = w.
Proof. unfold lift. by intros [= -> ->]. Qed.

(** ** The delegator, outcome by outcome ([delegators.ts], [workers.ts]) *)

Lemma bind_Throw_inv {A B} (m : M A) (f : A → M B) w e w' :
  (m ≫= f) w = (Throw e, w') →
  m w = (Throw e, w') ∨ ∃ a w1, m w = (Normal a, w1) ∧ f a w1 = (Throw e, w').
Proof.
  unfold mbind, M_bind. destruct (m w) as [[a|e'|] w1]; intros H;
    simplify_eq; eauto.
Qed.

Lemma fmap_Throw_inv {A B} (f : A → B) (m : M A) w e w' :
  (f <$> m) w = (Throw e, w') → m w = (Throw e, w').
Proof.
  unfold fmap, M_fmap. destruct (m w) as [[a|e'|] w1]; intros H;
    by simplify_eq.
Qed.

(** What each kind of state returned by the delegator says about the run
    that produced it. *)
Lemma process_inv s w r w' :
  MethodBindingDelegator.process s w = (Normal r, w') →
  match r with
  | IsPrototypeMethodState p =>
      MethodBindingInvestigator.isPrototypeAccess s = true ∧ w' = w
      ∧ PrototypeMethodState.new s s = Normal p
  | IsExistingBindState x =>
      MethodBindingInvestigator.isPrototypeAccess s = false
      ∧ ∃ w1 w2 v,
          MethodBindingInvestigator.hasExistingBinding s w = (Normal true, w1)
          ∧ get_property (IInitialBindingState.instance s)
              (IInitialBindingState.methodName s) w1 = (Normal v, w2)
          ∧ w' = w2
          ∧ ExistingBindState.new (IInitialBindingState.base s) v s = Normal x
  | IsDefinedPropertyState x =>
      MethodBindingInvestigator.isPrototypeAccess s = false
      ∧ ∃ w1 bs w2,
          MethodBindingInvestigator.hasExistingBinding s w = (Normal false, w1)
          ∧ CreateMethodBindingWorker.bindToInstance s w1 = (Normal bs, w2)
          ∧ DefinePropertyWorker.defineOnInstance bs w2 = (Normal x, w')
  | IsBindingErrorState x =>
      ∃ message w1,
        ErrorTransitionWorker.createErrorState
          {| IErrorTransitionState.state := s;
             IErrorTransitionState.error := message;
             IErrorTransitionState.failedOperation := bind_phase |} w1
        = (Normal x, w')
  end.
Proof.
  unfold MethodBindingDelegator.process, try_catch.
  match goal with |- context [match ?body w with _ => _ end] =>
    destruct (body w) as [[a|e|] w0] eqn:Hbody end.
  - intros [= -> ->].
    destruct (MethodBindingInvestigator.isPrototypeAccess s) eqn:Hp.
    { apply fmap_Normal_inv in Hbody as (p & -> & Hp').
      unfold RetrieveOriginalMethodWorker.retrieveFromPrototype in Hp'.
      apply lift_Normal_inv in Hp' as [? ->]. done. }
    apply bind_Normal_inv in Hbody as ([] & w1 & Hex & Hrest).
    + apply fmap_Normal_inv in Hrest as (x & -> & Hx).
      unfold RetrieveExistingBindingWorker.retrieveFromInstance in Hx.
      apply bind_Normal_inv in Hx as (v & w2 & Hget & Hnew).
      apply lift_Normal_inv in Hnew as [? ->].
      split; [done|]. by exists w1, w2, v.
    + apply bind_Normal_inv in Hrest as (bs & w2 & Hbs & Hrest).
      apply fmap_Normal_inv in Hrest as (x & -> & Hx).
      split; [done|]. by exists w1, bs, w2.
  - destruct e as [msg|msg|msg]; try done.
    intros (x & -> & Hx)%fmap_Normal_inv. by exists msg, w0.
  - done.
Qed.

(** X3. Whatever state the delegator is handed, validated or not, the
    state it returns carries that state's instance, method name and
    enumerable flag unchanged, and the instance and the method name are
    truthy: no processed state exists for a missing instance or an empty
    name. *)
Theorem processed_state_well_formed s w r w' :
  MethodBindingDelegator.process s w = (Normal r, w') →
  processed_base r = IInitialBindingState.base s
  ∧ ToBoolean (IInitialBindingState.instance s) = true
  ∧ ToBoolean (key_value (IInitialBindingState.methodName s)) = true.
Proof.
  intros H%process_inv. destruct r as [p|x|x|x]; simpl.
  - destruct H as (_ & _ & H).
    unfold PrototypeMethodState.new, and_then in H.
    destruct (BaseBindingState.new _) as [b| |] eqn:Hb; simplify_eq.
    by apply BaseBindingState_new_inv in Hb as (-> & ? & ?).
  - destruct H as (_ & w1 & w2 & v & _ & _ & _ & H).
    unfold ExistingBindState.new, and_then in H.
    destruct (BaseBindingState.new _) as [b| |] eqn:Hb; simplify_eq.
    by apply BaseBindingState_new_inv in Hb as (-> & ? & ?).
  - destruct H as (msg & w1 & H).
    unfold ErrorTransitionWorker.createErrorState in H.
    apply bind_Normal_inv in H as (tm & w2 & _ & H).
    apply lift_Normal_inv in H as [H _].
    unfold BindingErrorState.new, and_then in H. simpl in H.
    destruct (BaseBindingState.new _) as [b| |] eqn:Hb; simplify_eq.
    by apply BaseBindingState_new_inv in Hb as (-> & ? & ?).
  - destruct H as (_ & w1 & bs & w2 & _ & Hbs & Hdef).
    unfold CreateMethodBindingWorker.bindToInstance in Hbs.
    apply bind_Normal_inv in Hbs as (_ & w3 & _ & Hbs).
    apply bind_Normal_inv in Hbs as (bm & w4 & _ & Hbs).
    apply bind_Normal_inv in Hbs as (tm & w5 & _ & Hbs).
    apply lift_Normal_inv in Hbs as [Hbs _].
    unfold BoundMethodState.new, and_then in Hbs.
    destruct (BaseBindingState.new _) as [b| |] eqn:Hb; simplify_eq.
    apply BaseBindingState_new_inv in Hb as (-> & ? & ?).
    unfold DefinePropertyWorker.defineOnInstance in Hdef.
    apply bind_Normal_inv in Hdef as (_ & w6 & _ & Hdef).
    apply bind_Normal_inv in Hdef as (tm' & w7 & _ & Hdef).
    apply lift_Normal_inv in Hdef as [Hdef _].
    unfold DefinedPropertyState.new, and_then in Hdef. simpl in Hdef.
    destruct (BaseBindingState.new _) as [b| |] eqn:Hb; simplify_eq.
    by apply BaseBindingState_new_inv in Hb as (-> & ? & ?).
Qed.

Lemma processed_state_well_formed_witness :
  processed_base (IsExistingBindState ProcessedExamples.counter_existing)
    = IInitialBindingState.base ProcessedExamples.counter_request
  ∧ ToBoolean
      (IInitialBindingState.instance ProcessedExamples.counter_request) = true
  ∧ ToBoolean
      (key_value
         (IInitialBindingState.methodName ProcessedExamples.counter_request))
    = true.
Proof.
  apply (processed_state_well_formed ProcessedExamples.counter_request
           Examples.counter_read
           (IsExistingBindState ProcessedExamples.counter_existing)
           Examples.counter_read).
  vm_compute. reflexivity.
Defined.

Lemma hasExistingBinding_inv s w b w' :
  MethodBindingInvestigator.hasExistingBinding s w = (Normal b, w') →
  w' = w
  ∧ ∃ i ob, IInitialBindingState.instance s = VObject i
            ∧ heap w !! i = Some ob
            ∧ b = bool_decide
                    (is_Some (properties ob
                                !! IInitialBindingState.methodName s)).
Proof.
  unfold MethodBindingInvestigator.hasExistingBinding, hasOwnProperty_call.
  destruct (IInitialBindingState.instance s) as [| | | | | | |i]; try done.
  destruct (heap w !! i) as [ob|] eqn:Hob; [|done].
  intros [= <- <-]. split; [done|]. by exists i, ob.
Qed.





(** X4. The two retrieval outcomes are read-only: when the delegator
    answers with the prototype state or with the existing-binding state,
    the world is exactly as before (no allocation, no clock reading), the
    state points back at the initial state, and what it carries is the
    original method, respectively the value stored on the instance. *)
Theorem retrieval_is_read_only s w r w' :
  MethodBindingDelegator.process s w = (Normal r, w') →
  match r with
  | IsPrototypeMethodState p =>
      w' = w
      ∧ PrototypeMethodState.method p = IInitialBindingState.method s
      ∧ PrototypeMethodState.target p = IInitialBindingState.target s
      ∧ PrototypeMethodState.isPrototype p = true
      ∧ PrototypeMethodState.previousState p = s
  | IsExistingBindState x =>
      w' = w
      ∧ get_property (IInitialBindingState.instance s)
          (IInitialBindingState.methodName s) w
        = (Normal (ExistingBindState.boundMethod x), w)
      ∧ ExistingBindState.isExisting x = true
      ∧ ExistingBindState.previousState x = s
  | _ => True
  end.
Proof.
  intros H%process_inv. destruct r as [p|x|x|x]; [| |done..].
  - destruct H as (_ & -> & H).
    unfold PrototypeMethodState.new, and_then in H.
    destruct (BaseBindingState.new _); by simplify_eq.
  - destruct H as (_ & w1 & w2 & v & Hex & Hget & -> & H).
    apply hasExistingBinding_inv in Hex as [-> _].
    pose proof (get_property_pure _ _ _ _ _ Hget) as ->.
    unfold ExistingBindState.new, and_then in H.
    destruct (BaseBindingState.new _); by simplify_eq.
Qed.

Lemma retrieval_is_read_only_witness :
  Examples.counter_read = Examples.counter_read
  ∧ get_property
      (IInitialBindingState.instance ProcessedExamples.counter_request)
      (IInitialBindingState.methodName ProcessedExamples.counter_request)
      Examples.counter_read
    = (Normal
         (ExistingBindState.boundMethod ProcessedExamples.counter_existing),
       Examples.counter_read)
  ∧ ExistingBindState.isExisting ProcessedExamples.counter_existing = true
  ∧ ExistingBindState.previousState ProcessedExamples.counter_existing
    = ProcessedExamples.counter_request.
Proof.
  apply (retrieval_is_read_only ProcessedExamples.counter_request
           Examples.counter_read
           (IsExistingBindState ProcessedExamples.counter_existing)
           Examples.counter_read).
  vm_compute. reflexivity.
Defined.



(** ** What an access touches ([bind.ts], [workers.ts]) *)


(** X6. An access changes no object other than its receiver, and never
    the defining object: whatever the outcome, an object that is not the
    receiver, or that is the target, is afterwards what it was.  (The
    receiver itself changes only by gaining the bound property.) *)
Theorem access_frame t k d this w l o :
  heap w !! l = Some o →
  this ≠ VObject l ∨ t = VObject l →
  heap (Bind_get t k d this w).2 !! l = Some o.
Proof.
  intros Hl Hside.
  pose proof (Bind_get_resolution t k d this w) as R.
  destruct (Bind_get t k d this w) as [r w'] eqn:Hget. simpl in *.
  assert (∀ i, this = VObject i → strict_equals this t = false → i ≠ l)
    as Hdiff.
  { intros i -> Hnp ->. destruct Hside as [?| ->]; [done|].
    by rewrite (proj2 (strict_equals_object _ _) eq_refl) in Hnp. }
  inversion R as
    [ | | | | |
      i ob c m mo Hv Hnp Hi Hob Hk
      | i ob c m mo Hv Hnp Hi Hob Hk | | ]; simplify_eq; try done.
  - simpl. rewrite lookup_insert_ne by (by apply Hdiff).
    by apply lookup_alloc.
  - simpl. by apply lookup_alloc.
Qed.

Lemma access_frame_witness :
  heap (Bind_get (VObject 6) Examples.increment Examples.increment_descriptor
          (VObject 8) Examples.counter_world).2 !! 6%positive
  = heap Examples.counter_world !! 6%positive.
Proof.
  rewrite (access_frame (VObject 6) Examples.increment
             Examples.increment_descriptor (VObject 8) Examples.counter_world
             6 (default (Examples.plain None [])
                  (heap Examples.counter_world !! 6%positive))).
  - vm_compute. reflexivity.
  - vm_compute. reflexivity.
  - right. reflexivity.
Defined.





Lemma access_keeps_calls (h : gmap loc object) i ob k p o l x :
  h !! i = Some ob → h !! l = Some x →
  ∃ x', <[i := with_own ob k p]> (<[fresh (dom h) := o]> h) !! l = Some x'
        ∧ internal_call x' = internal_call x.
Proof.
  intros Hob Hl. destruct (decide (l = i)) as [->|Hne].
  - rewrite lookup_insert_eq. eexists. split; [done|]. simpl. congruence.
  - rewrite lookup_insert_ne by done. exists x. split; [|done].
    by apply lookup_alloc.
Qed.




(** ** Runs of accesses, continued *)

Lemma no_write_once_owned t k d i n w :
  is_Some (own_property (heap w) i k) →
  table_writes i (access_trace n t k d (VObject i) w) = 0.
Proof.
  revert w. induction n as [|n IH]; intros w Hown; [done|].
  rewrite table_writes_cons.
  destruct (access_step t k d i w) as [Hsame|[Hnone _]].
  - rewrite bool_decide_true by done. simpl. apply IH.
    by rewrite (own_table_property _ _ _ _ Hsame).
  - rewrite Hnone in Hown. by destruct Hown.
Qed.

(** X9. Exactly once: when the getter, run on an instance that owns no
    property of the method's name, returns, then over that access and any
    number of further ones the instance's own property table changes
    exactly once, at the first. *)
Theorem first_access_writes_exactly_once t k d i f w w' n :
  Bind_get t k d (VObject i) w = (Normal f, w') →
  own_property (heap w) i k = None →
  VObject i ≠ t →
  own_table (heap w') i ≠ own_table (heap w) i
  ∧ table_writes i (access_trace (S n) t k d (VObject i) w) = 1.
Proof.
  intros Hget Hnone Hne.
  pose proof (Bind_get_resolution t k d (VObject i) w) as R.
  rewrite Hget in R. simpl in R.
  assert (∀ ob p, heap w !! i = Some ob → properties ob !! k = Some p → False)
    as Habsent.
  { intros ob p Hob Hp. unfold own_property in Hnone.
    rewrite Hob in Hnone. simpl in Hnone. congruence. }
  inversion R as
    [ | ? Hp
      | i' ob v wr e c ? ? Hi Hob Hk
      | i' ob s e c ? ? Hi Hob Hk
      |
      | i' ob c m mo Hv ? Hi Hob Hk ? ? Hm Hmo
      | | | ]; simplify_eq.
  - by apply strict_equals_sound in Hp.
  - by destruct (Habsent _ _ Hob Hk).
  - by destruct (Habsent _ _ Hob Hk).
  - assert (own_table
              (<[i' := with_own ob k (installed d (fresh (dom (heap w))))]>
                 (<[fresh (dom (heap w)) :=
                      bound_function_object mo m (VObject i')]> (heap w))) i'
            ≠ own_table (heap w) i') as Hchanged.
    { unfold own_table. rewrite lookup_insert_eq, Hob. simpl.
      intros [= Heq].
      assert (<[k := installed d (fresh (dom (heap w)))]> (properties ob) !! k
              = properties ob !! k) as Hk' by (by rewrite Heq).
      rewrite lookup_insert_eq, Hk in Hk'. done. }
    split; [done|].
    rewrite table_writes_cons, Hget. simpl snd.
    rewrite bool_decide_false by (intros Heq; by apply Hchanged).
    rewrite no_write_once_owned; [done|].
    unfold own_property. simpl. rewrite lookup_insert_eq. simpl.
    rewrite lookup_insert_eq. eauto.
Qed.

Lemma first_access_writes_exactly_once_witness :
  own_table (heap Examples.counter_read) 8
    ≠ own_table (heap Examples.counter_world) 8
  ∧ table_writes 8
      (access_trace 4 (VObject 6) Examples.increment
         Examples.increment_descriptor (VObject 8) Examples.counter_world)
    = 1.
Proof.
  refine (first_access_writes_exactly_once (VObject 6) Examples.increment
            Examples.increment_descriptor 8 (VObject 10)
            Examples.counter_world Examples.counter_read 3 _ _ _);
    first [ vm_compute; reflexivity
          | apply (bool_decide_unpack _); vm_compute; exact I ].
Defined.

Lemma get_property_heap o k w1 w2 r :
  heap w1 = heap w2 →
  get_property o k w1 = (r, w1) → get_property o k w2 = (r, w2).
Proof.
  unfold get_property, Get, unmodelled. intros <- H.
  repeat case_match; by simplify_eq.
Qed.

(** X10. A rejection by the eligibility guard is neither cached nor
    retried, and nothing is done about it: the access leaves the heap as
    it was, so every further access through the same object is rejected
    with the same [BindError]. *)
Theorem rejection_repeats t k d this e n w :
  (Bind_get t k d this w).1 = Throw (BindError e) →
  Forall (λ w', heap w' = heap w
                ∧ (Bind_get t k d this w').1 = Throw (BindError e))
         (access_trace n t k d this w).
Proof.
  revert w. induction n as [|n IH]; intros w Hrej.
  { by repeat constructor. }
  simpl. constructor; [done|].
  pose proof (Bind_get_resolution t k d this w) as R.
  destruct (Bind_get t k d this w) as [r w'] eqn:Hget. simpl in *. subst r.
  inversion R as [ | | | | i ob Hv Hnp Hi Hob Hk Hctor | | | | ]; simplify_eq.
  assert (Bind_get t k d (VObject i)
            {| heap := heap w; clock := clock w; ticks := S (ticks w) |}
          = (Throw (BindError guard_message),
             {| heap := heap w; clock := clock w;
                ticks := S (S (ticks w)) |})) as Hnext.
  { apply (Bind_get_rejected t k d i ob); try done.
    by apply (get_property_heap _ _ w). }
  eapply Forall_impl; [apply IH; by rewrite Hnext|].
  intros w'' [Hheap Hthrow]. by rewrite Hheap.
Qed.

Lemma rejection_repeats_witness :
  Forall (λ w', heap w' = heap Examples.literal_world
                ∧ (Bind_get (VObject 5) Examples.greet
                     Examples.greet_descriptor (VObject 7) w').1
                  = Throw (BindError guard_message))
         (access_trace 3 (VObject 5) Examples.greet Examples.greet_descriptor
            (VObject 7) Examples.literal_world).
Proof.
  apply (rejection_repeats (VObject 5) Examples.greet
           Examples.greet_descriptor (VObject 7) guard_message 3
           Examples.literal_world).
  vm_compute. reflexivity.
Defined.

(** ** Decoration ([bind.ts]) *)

(** X11. Decoration does nothing but make the accessor: the descriptor
    returned is configurable, copies the original's enumerable flag, and
    holds a getter that is a new object; every existing object is as it
    was; and the original method is not lost, the getter run with the
    target as receiver handing it back. *)
Theorem decoration_is_inert t k d w :
  ToBoolean (key_value k) = true →
  ToBoolean t = true →
  IsCallable (heap w) (desc_value d) = true →
  ∃ g w',
    Bind t k (Some d) w
    = (Normal {| ad_configurable := true;
                 ad_enumerable := desc_enumerable d;
                 ad_get := VObject g |}, w')
    ∧ heap w !! g = None
    ∧ (∀ l o, heap w !! l = Some o → heap w' !! l = Some o)
    ∧ (∀ this, call_getter g this w' = Bind_get t k d this w')
    ∧ call_getter g t w' = (Normal (desc_value d), w').
Proof.
  intros Hk Ht Hcall.
  exists (fresh (dom (heap w))). eexists. split; [reflexivity|].
  split; [apply not_elem_of_dom_1, is_fresh|].
  split; [intros l o Hl; by apply lookup_alloc|].
  assert (∀ this,
            call_getter (fresh (dom (heap w))) this
              (with_heap
                 (<[fresh (dom (heap w)) :=
                      {| prototype := None; extensible := true;
                         properties := ∅;
                         internal_call := Some (BindGetter t k d) |}]>
                    (heap w)) w)
            = Bind_get t k d this
                (with_heap
                   (<[fresh (dom (heap w)) :=
                        {| prototype := None; extensible := true;
                           properties := ∅;
                           internal_call := Some (BindGetter t k d) |}]>
                      (heap w)) w)) as Hrun.
  { intros this. unfold call_getter. simpl. by rewrite lookup_insert_eq. }
  split; [exact Hrun|]. rewrite Hrun.
  apply Bind_get_prototype.
  - unfold valid_request. simpl_request. rewrite Ht, Hk. simpl.
    by apply IsCallable_alloc.
  - destruct t; try done; simpl; by apply bool_decide_eq_true.
Qed.

Lemma decoration_is_inert_witness :
  ∃ g w',
    Bind (VObject 6) Examples.increment (Some Examples.increment_descriptor)
      Examples.undecorated
    = (Normal {| ad_configurable := true;
                 ad_enumerable := desc_enumerable Examples.increment_descriptor;
                 ad_get := VObject g |}, w')
    ∧ heap Examples.undecorated !! g = None
    ∧ (∀ l o, heap Examples.undecorated !! l = Some o → heap w' !! l = Some o)
    ∧ (∀ this,
         call_getter g this w'
         = Bind_get (VObject 6) Examples.increment
             Examples.increment_descriptor this w')
    ∧ call_getter g (VObject 6) w'
      = (Normal (desc_value Examples.increment_descriptor), w').
Proof.
  apply (decoration_is_inert (VObject 6) Examples.increment
           Examples.increment_descriptor Examples.undecorated);
    vm_compute; reflexivity.
Defined.

(** ** The define worker on its own ([workers.ts]) *)

(** X12. [defineOnInstance] asks for a configurable property, so it goes
    through exactly when the instance lacks the property and is
    extensible, or holds it as configurable, and it then replaces whatever
    was there with the bound method, writable, configurable and enumerable
    as the state says; otherwise it throws a [TypeError] and the world is
    as it was. *)
Theorem defineOnInstance_decided bs w i ob :
  IBindingState.instance (BoundMethodState.base bs) = VObject i →
  heap w !! i = Some ob →
  ToBoolean (key_value (IBindingState.methodName (BoundMethodState.base bs)))
    = true →
  let k := IBindingState.methodName (BoundMethodState.base bs) in
  if definable ob k then
    ∃ x w',
      DefinePropertyWorker.defineOnInstance bs w = (Normal x, w')
      ∧ own_property (heap w') i k
        = Some (DataProperty (BoundMethodState.boundMethod bs) true
                  (IBindingState.enumerable (BoundMethodState.base bs)) true)
      ∧ DefinedPropertyState.boundMethod x = BoundMethodState.boundMethod bs
      ∧ DefinedPropertyState.previousState x = bs
  else
    DefinePropertyWorker.defineOnInstance bs w
    = (Throw (TypeError "Cannot define property"), w).
Proof.
  intros Hi Hob Hname k.
  assert (define_allowed (extensible ob) (properties ob !! k)
            {| dd_value := BoundMethodState.boundMethod bs;
               dd_configurable := true; dd_writable := true;
               dd_enumerable :=
                 IBindingState.enumerable (BoundMethodState.base bs) |}
          = definable ob k) as Hallowed.
  { unfold define_allowed, definable.
    destruct (properties ob !! k) as [[v wr e c|g s e c]|]; simpl; try done.
    by destruct c. }
  unfold DefinePropertyWorker.defineOnInstance, Object_defineProperty.
  unfold_monad. rewrite Hi, Hob. fold k. rewrite Hallowed.
  destruct (definable ob k); [|done].
  unfold Date_now, DefinedPropertyState.new. unfold_monad.
  rewrite BaseBindingState_new_valid; [|by rewrite Hi|done].
  eexists _, _. split; [reflexivity|]. simpl.
  split; [|done].
  unfold own_property. rewrite lookup_insert_eq. simpl.
  apply lookup_insert_eq.
Qed.

Lemma defineOnInstance_decided_witness :
  DefinePropertyWorker.defineOnInstance MoreExamples.frozen_bound_state
    Examples.frozen_world
  = (Throw (TypeError "Cannot define property"), Examples.frozen_world).
Proof.
  exact (defineOnInstance_decided MoreExamples.frozen_bound_state
           Examples.frozen_world 8
           (default (Examples.plain None [])
              (heap Examples.frozen_world !! 8%positive))
           eq_refl eq_refl eq_refl).
Defined.

(** ** After the first access ([investigators.ts], [workers.ts]) *)

Lemma IsCallable_ext (h h' : gmap loc object) v :
  (∀ l o, h !! l = Some o →
          ∃ o', h' !! l = Some o' ∧ internal_call o' = internal_call o) →
  IsCallable h v = true → IsCallable h' v = true.
Proof.
  intros Hext (m & mo & c & -> & Hm & Hc)%IsCallable_inv.
  destruct (Hext _ _ Hm) as (o' & Hm' & Hc').
  unfold IsCallable. rewrite Hm'. apply bool_decide_eq_true.
  rewrite Hc', Hc. eauto.
Qed.

Lemma access_valid w i k t d f w' :
  decorated_slot (heap w) i k = Some (t, k, d) →
  read (VObject i) k w = (Normal f, w') →
  valid_request (heap w) (request t k d (VObject i)) = true.
Proof.
  intros Hslot Hread. rewrite (read_decorated _ _ _ _ _ _ Hslot) in Hread.
  destruct (valid_request (heap w) (request t k d (VObject i))) eqn:Hv;
    [done|].
  destruct (Bind_get_invalid _ _ _ _ _ Hv) as [msg Hmsg]. congruence.
Qed.

(** X13. Only the first access needs an extensible instance.  Once the
    method has been read through an instance, freezing the instance does
    not harm the binding: a read, and the getter itself run on the
    instance, still return the same function and change nothing, the
    existing-binding branch making no write. *)
Theorem binding_survives_freezing w i k t d f w' :
  decorated_slot (heap w) i k = Some (t, k, d) →
  VObject i ≠ t →
  read (VObject i) k w = (Normal f, w') →
  read (VObject i) k (Object_freeze i w') = (Normal f, Object_freeze i w')
  ∧ Bind_get t k d (VObject i) (Object_freeze i w')
    = (Normal f, Object_freeze i w').
Proof.
  intros Hslot Hne Hread.
  pose proof (access_valid _ _ _ _ _ _ _ Hslot Hread) as Hvalid.
  destruct (access_through_instance _ _ _ _ _ _ _ Hslot Hne Hread)
    as (ob & b & m & mo & cm & Hob & Hk & _ & _ & _ & Hb & -> & Hheap).
  set (ob' := with_own ob k (installed d b)).
  set (fz := {| prototype := prototype ob'; extensible := false;
                properties := frozen_property <$> properties ob';
                internal_call := internal_call ob' |}).
  assert (heap w' !! i = Some ob') as Hob'
    by (rewrite Hheap; apply lookup_insert_eq).
  assert (heap (Object_freeze i w') !! i = Some fz) as Hfz.
  { unfold Object_freeze. simpl. by rewrite lookup_alter_eq, Hob'. }
  assert (properties fz !! k
          = Some (DataProperty (VObject b) false
                    (default false (desc_enumerable d)) false)) as Hkfz.
  { unfold fz. simpl. rewrite lookup_fmap. unfold ob', with_own. simpl.
    by rewrite lookup_insert_eq. }
  split; [by eapply read_own_data|].
  eapply Bind_get_existing; [|by apply strict_equals_distinct|done..].
  revert Hvalid. unfold valid_request. simpl_request.
  intros [Hrest Hcall]%andb_prop. apply andb_true_intro. split; [done|].
  eapply IsCallable_ext; [|exact Hcall].
  intros l o Hl. unfold Object_freeze. simpl.
  destruct (access_keeps_calls (heap w) i ob k (installed d b)
              (bound_function_object mo m (VObject i)) l o Hob Hl)
    as (o' & Ho' & Hc').
  rewrite <- Hb, <- Hheap in Ho'.
  destruct (decide (l = i)) as [->|Hli].
  - rewrite lookup_alter_eq, Ho'. simpl. eexists. split; [done|]. done.
  - rewrite lookup_alter_ne by done. eauto.
Qed.

Lemma binding_survives_freezing_witness :
  read (VObject 8) Examples.increment MoreExamples.frozen_after_read
    = (Normal (VObject 10), MoreExamples.frozen_after_read)
  ∧ Bind_get (VObject 6) Examples.increment Examples.increment_descriptor
      (VObject 8) MoreExamples.frozen_after_read
    = (Normal (VObject 10), MoreExamples.frozen_after_read).
Proof.
  refine (binding_survives_freezing Examples.counter_world 8
            Examples.increment (VObject 6) Examples.increment_descriptor
            (VObject 10) Examples.counter_read _ _ _);
    first [ vm_compute; reflexivity
          | apply (bool_decide_unpack _); vm_compute; exact I ].
Defined.

(** ** A method that was already bound ([workers.ts]) *)




(** ** The error state ([delegators.ts], [workers.ts], [errors.ts]) *)

Lemma BaseBindingState_new_throws b e :
  BaseBindingState.new b = Throw e → ∃ msg, e = TypeError msg.
Proof.
  unfold BaseBindingState.new, BaseBindingState.validateInstance,
    BaseBindingState.validateMethodName, and_then.
  destruct (ToBoolean (IBindingState.instance b)); simpl;
    [|intros [= <-]; eauto].
  destruct (ToBoolean (key_value (IBindingState.methodName b))); simpl;
    [done|intros [= <-]; eauto].
Qed.

Lemma and_then_new_throws {A} b (f : IBindingState.t → A) e :
  and_then (BaseBindingState.new b) (λ x, Normal (f x)) = Throw e →
  ∃ msg, e = TypeError msg.
Proof.
  unfold and_then.
  destruct (BaseBindingState.new b) eqn:Hb; [done| |done].
  intros [= <-]. by eapply BaseBindingState_new_throws.
Qed.

Lemma get_property_throws o k w e w' :
  get_property o k w = (Throw e, w') → ∃ msg, e = TypeError msg.
Proof.
  unfold get_property, Get, unmodelled. intros H.
  repeat case_match; simplify_eq; eauto.
Qed.

(** Where the [try] block of the delegator can throw a [BindingError]:
    in the guard, and nowhere else. *)
Lemma process_body_BindingError s w msg w1 :
  (if MethodBindingInvestigator.isPrototypeAccess s then
     IsPrototypeMethodState <$>
       RetrieveOriginalMethodWorker.retrieveFromPrototype s
   else
     existing ← MethodBindingInvestigator.hasExistingBinding s;
     if (existing : bool) then
       IsExistingBindState <$>
         RetrieveExistingBindingWorker.retrieveFromInstance s
     else
       boundState ← CreateMethodBindingWorker.bindToInstance s;
       IsDefinedPropertyState <$>
         DefinePropertyWorker.defineOnInstance boundState) w
  = (Throw (BindingError msg), w1) →
  MethodBindingInvestigator.isPrototypeAccess s = false
  ∧ MethodBindingInvestigator.hasExistingBinding s w = (Normal false, w)
  ∧ MethodBindingInvestigator.shouldBindToPrototype s w = (Normal false, w)
  ∧ msg = guard_message ∧ w1 = w.
Proof.
  destruct (MethodBindingInvestigator.isPrototypeAccess s).
  { intros H%fmap_Throw_inv.
    unfold RetrieveOriginalMethodWorker.retrieveFromPrototype, lift in H.
    injection H as H _.
    by apply and_then_new_throws in H as [? ?]. }
  intros [H|(existing & w2 & Hex & H)]%bind_Throw_inv.
  { unfold MethodBindingInvestigator.hasExistingBinding,
      hasOwnProperty_call in H.
    repeat case_match; by simplify_eq. }
  pose proof Hex as Hex'.
  apply hasExistingBinding_inv in Hex' as [-> _].
  destruct existing.
  { apply fmap_Throw_inv in H.
    unfold RetrieveExistingBindingWorker.retrieveFromInstance in H.
    apply bind_Throw_inv in H as [H|(v & w3 & _ & H)].
    - by apply get_property_throws in H as [? ?].
    - unfold lift in H. injection H as H _.
      by apply and_then_new_throws in H as [? ?]. }
  apply bind_Throw_inv in H as [H|(bs & w3 & _ & H)].
  - unfold CreateMethodBindingWorker.bindToInstance in H.
    apply bind_Throw_inv in H as [H|(u & w3 & _ & H)].
    + unfold BindingError.assertCanBind in H.
      apply bind_Throw_inv in H as [H|(ok & w3 & Hok & H)].
      * unfold MethodBindingInvestigator.shouldBindToPrototype in H.
        apply bind_Throw_inv in H as [H|(c & w3 & _ & H)]; [|done].
        by apply get_property_throws in H as [? ?].
      * pose proof Hok as Hok'.
        unfold MethodBindingInvestigator.shouldBindToPrototype in Hok'.
        apply bind_Normal_inv in Hok' as (c & w4 & Hc & Hret).
        apply get_property_pure in Hc as ->.
        unfold mret, M_ret in Hret. injection Hret as _ <-.
        destruct ok; simpl in H; unfold throw, mret, M_ret in H;
          by simplify_eq.
    + apply bind_Throw_inv in H as [H|(bm & w4 & _ & H)].
      { unfold invoke_bind in H.
        apply bind_Throw_inv in H as [H|(bf & w5 & _ & H)].
        - by apply get_property_throws in H as [? ?].
        - unfold call_function, Function_bind in H.
          repeat case_match; by simplify_eq. }
      apply bind_Throw_inv in H as [H|(tm & w5 & _ & H)]; [done|].
      unfold lift in H. injection H as H _.
      by apply and_then_new_throws in H as [? ?].
  - apply fmap_Throw_inv in H.
    unfold DefinePropertyWorker.defineOnInstance in H.
    apply bind_Throw_inv in H as [H|(u & w4 & _ & H)].
    { unfold Object_defineProperty in H. repeat case_match; by simplify_eq. }
    apply bind_Throw_inv in H as [H|(tm & w5 & _ & H)]; [done|].
    unfold lift in H. injection H as H _.
    by apply and_then_new_throws in H as [? ?].
Qed.

(** X15. An error state has one origin.  When the delegator returns one,
    the error it holds is the guard's message and the failed operation is
    [bind]; the access was through an object other than the target, that
    owned no property of the method's name, and whose target's
    [constructor] is [Object]; nothing was allocated or written, the clock
    was read once for the error time, and the state points back at the
    request.  A failure of [defineProperty] is a [TypeError], and never
    becomes an error state. *)
Theorem error_state_has_one_origin s w x w' :
  MethodBindingDelegator.process s w = (Normal (IsBindingErrorState x), w') →
  BindingErrorState.error x = guard_message
  ∧ BindingErrorState.failedOperation x = bind_phase
  ∧ BindingErrorState.errorTime x = clock w (ticks w)
  ∧ IErrorTransitionState.state (BindingErrorState.previousState x) = s
  ∧ MethodBindingInvestigator.isPrototypeAccess s = false
  ∧ MethodBindingInvestigator.hasExistingBinding s w = (Normal false, w)
  ∧ MethodBindingInvestigator.shouldBindToPrototype s w = (Normal false, w)
  ∧ heap w' = heap w ∧ ticks w' = S (ticks w).
Proof.
  unfold MethodBindingDelegator.process, try_catch.
  match goal with |- context [match ?body w with _ => _ end] =>
    destruct (body w) as [[a|e|] w1] eqn:Hbody end.
  - intros H. simplify_eq. exfalso.
    destruct (MethodBindingInvestigator.isPrototypeAccess s).
    { by apply fmap_Normal_inv in Hbody as (? & ? & _). }
    apply bind_Normal_inv in Hbody as ([] & w2 & _ & Hrest).
    { by apply fmap_Normal_inv in Hrest as (? & ? & _). }
    apply bind_Normal_inv in Hrest as (bs & w3 & _ & Hrest).
    by apply fmap_Normal_inv in Hrest as (? & ? & _).
  - destruct e as [msg|msg|msg]; try done.
    apply process_body_BindingError in Hbody as (Hp & Hex & Hg & -> & ->).
    intros (r' & [= ->] & H)%fmap_Normal_inv.
    unfold ErrorTransitionWorker.createErrorState in H.
    apply bind_Normal_inv in H as (tm & w2 & Htm & H).
    unfold Date_now in Htm. injection Htm as <- <-.
    apply lift_Normal_inv in H as [H ->].
    unfold BindingErrorState.new, and_then in H.
    destruct (BaseBindingState.new _); by simplify_eq.
  - done.
Qed.

Lemma error_state_has_one_origin_witness :
  BindingErrorState.error ProcessedExamples.greet_rejected = guard_message
  ∧ BindingErrorState.failedOperation ProcessedExamples.greet_rejected
    = bind_phase
  ∧ BindingErrorState.errorTime ProcessedExamples.greet_rejected
    = clock Examples.literal_world (ticks Examples.literal_world)
  ∧ IErrorTransitionState.state
      (BindingErrorState.previousState ProcessedExamples.greet_rejected)
    = ProcessedExamples.greet_request
  ∧ MethodBindingInvestigator.isPrototypeAccess
      ProcessedExamples.greet_request = false
  ∧ MethodBindingInvestigator.hasExistingBinding
      ProcessedExamples.greet_request Examples.literal_world
    = (Normal false, Examples.literal_world)
  ∧ MethodBindingInvestigator.shouldBindToPrototype
      ProcessedExamples.greet_request Examples.literal_world
    = (Normal false, Examples.literal_world)
  ∧ heap ProcessedExamples.literal_rejected = heap Examples.literal_world
  ∧ ticks ProcessedExamples.literal_rejected
    = S (ticks Examples.literal_world).
Proof.
  apply (error_state_has_one_origin ProcessedExamples.greet_request
           Examples.literal_world ProcessedExamples.greet_rejected
           ProcessedExamples.literal_rejected).
  vm_compute. reflexivity.
Defined.

(** ** The lookup of [bind] ([workers.ts]) *)

(** X16. [bindToInstance] calls the [bind] it finds on the method, so a
    method whose [bind] holds something that cannot be called cannot be
    bound: the access throws a [TypeError] before anything is allocated,
    written or timed, the world is exactly as before, and so any number
    of further accesses go the same way. *)
Theorem uncallable_bind_fails_cleanly t k d i ob c w n :
  valid_request (heap w) (request t k d (VObject i)) = true →
  VObject i ≠ t →
  heap w !! i = Some ob →
  properties ob !! k = None →
  get_property t (KString "constructor") w = (Normal c, w) →
  c ≠ VObject Object_constructor →
  method_bind w (desc_value d) = bind_not_callable →
  Bind_get t k d (VObject i) w = (Throw (TypeError bind_message), w)
  ∧ access_trace n t k d (VObject i) w = replicate (S n) w.
Proof.
  intros Hvalid Hne Hob Hk Hctor Hc Hbind.
  destruct (valid_request_inv _ _ _ _ _ Hvalid) as (_ & _ & _ & Hcall).
  apply IsCallable_inv in Hcall as (m & mo & cm & Hm & Hmo & _).
  assert (Bind_get t k d (VObject i) w = (Throw (TypeError bind_message), w))
    as Hget.
  { eapply Bind_get_bind_failed; try done. by apply strict_equals_distinct. }
  split; [done|].
  induction n as [|n IH]; [done|].
  simpl. rewrite Hget. simpl. by rewrite IH.
Qed.

Lemma uncallable_bind_fails_cleanly_witness :
  Bind_get (VObject 6) Examples.increment Examples.increment_descriptor
    (VObject 8) MoreExamples.unbindable_world
    = (Throw (TypeError bind_message), MoreExamples.unbindable_world)
  ∧ access_trace 3 (VObject 6) Examples.increment
      Examples.increment_descriptor (VObject 8) MoreExamples.unbindable_world
    = replicate 4 MoreExamples.unbindable_world.
Proof.
  refine (uncallable_bind_fails_cleanly (VObject 6) Examples.increment
            Examples.increment_descriptor 8
            (Examples.plain (Some 6%positive) []) (VObject 5)
            MoreExamples.unbindable_world 3 _ _ _ _ _ _ _);
    first [ vm_compute; reflexivity
          | apply (bool_decide_unpack _); vm_compute; exact I ].
Defined.
